(** * File integrity monitor: the change-detection core

    A shallow embedding of the Python package [fim] (modules [utils],
    [config], [baseline], [monitor], [reporting] and the event handler of
    [cli]) and the properties of its diff engine, incremental classifier,
    baseline store and debounce filter.

    Conventions of the embedding.
    - A Python [str] is a [string]: its UTF-8 bytes.  Comparing UTF-8 byte
      strings lexicographically agrees with comparing code point sequences,
      which is the order [sorted] uses on [str].
    - A [pathlib.Path] is the [string] that [str(path)] returns.
    - A [dict] with [str] keys is a [gmap string _]; a [set] of [str] is a
      [gset string].
    - A function that can raise returns a [result]; a function that logs
      threads the list of log records written so far.
    - A Python [float] is a binary64 value; operations on floats round to
      the nearest value, ties to even, and comparisons are exact.
    - The Python runtime and the operating system (hashlib, pathlib, json,
      the file system) are not part of the package: they form the interface
      [Platform], whose laws are the documented contracts the package
      relies on. *)

From Stdlib Require Import ZArith Zpower QArith Qpower Lqa String Ascii.
From Stdlib Require Import Floats.SpecFloat.
From stdpp Require Import base option list gmap sets strings sorting.

Set Warnings "-register-all".
Set Default Proof Using "Type*".
Open Scope string_scope.
Open Scope list_scope.

(** ** Exceptions and results *)

Inductive exn :=
  | OSError (msg : string)
  | ValueError (msg : string)
  | KeyError (key : string)
  | TypeError (msg : string)
  | AttributeError (msg : string)
  | RuntimeError (msg : string)
  | OverflowError (msg : string).

Global Instance exn_eq_dec : EqDecision exn.
Proof. solve_decision. Defined.

Inductive result (A : Type) :=
  | Ok (a : A)
  | Raise (e : exn).
Arguments Ok {A} a.
Arguments Raise {A} e.

Global Instance result_ret : MRet result := λ A a, Ok a.
Global Instance result_bind : MBind result := λ A B f m,
  match m with
  | Ok a => f a
  | Raise e => Raise e
  end.
Global Instance result_fmap : FMap result := λ A B f m,
  match m with
  | Ok a => Ok (f a)
  | Raise e => Raise e
  end.

(** [d[k]] on a dict: [KeyError] when the key is missing. *)
Definition getitem {A} (d : gmap string A) (k : string) : result A :=
  match d !! k with
  | Some v => Ok v
  | None => Raise (KeyError k)
  end.

(** A list comprehension [[e for x in xs]] whose element expression can
    raise: elements are evaluated left to right, the first exception ends
    the comprehension. *)
Fixpoint comprehension {A B} (f : A → result B) (xs : list A) : result (list B) :=
  match xs with
  | [] => Ok []
  | x :: xs' => y ← f x; ys ← comprehension f xs'; Ok (y :: ys)
  end.

(** A generator expression [(e for x in xs if c)]: [f x] is [Ok None] when
    the condition is false. *)
Fixpoint comprehension_if {A B} (f : A → result (option B)) (xs : list A)
    : result (list B) :=
  match xs with
  | [] => Ok []
  | x :: xs' =>
      y ← f x; ys ← comprehension_if f xs';
      Ok (match y with Some b => b :: ys | None => ys end)
  end.

(** ** The order of [str] and [sorted] *)

Definition str_le (a b : string) : Prop := String.leb a b = true.
Definition str_lt (a b : string) : Prop := String.ltb a b = true.

Global Instance str_le_dec : RelDecision str_le.
Proof. intros a b. unfold str_le. apply _. Defined.
Global Instance str_lt_dec : RelDecision str_lt.
Proof. intros a b. unfold str_lt. apply _. Defined.

(** [sorted(s)] for a set of [str]: the elements in ascending order. *)
Definition sorted (s : gset string) : list string :=
  merge_sort str_le (elements s).

(** ** Logging

    A logger is the list of records written so far, oldest first.  A
    computation that logs and can raise maps the log before to its outcome
    and the log after; the records written before an exception stay. *)

Inductive log_record :=
  | LogInfo (msg : string)
  | LogWarning (msg : string)
  | LogError (msg : string).

Global Instance log_record_eq_dec : EqDecision log_record.
Proof. solve_decision. Defined.

Abbreviation Logger := (list log_record).

Definition Py (A : Type) : Type := Logger → result A * Logger.

Definition py_ret {A} (a : A) : Py A := λ log, (Ok a, log).
Definition py_bind {A B} (m : Py A) (f : A → Py B) : Py B := λ log,
  match m log with
  | (Ok a, log') => f a log'
  | (Raise e, log') => (Raise e, log')
  end.
Definition lift {A} (r : result A) : Py A := λ log, (r, log).

Declare Scope py_scope.
Delimit Scope py_scope with py.
Notation "x <- m ;; k" := (py_bind m (λ x, k))
  (at level 100, m at next level, right associativity) : py_scope.
Notation "m ;; k" := (py_bind m (λ _, k))
  (at level 100, right associativity) : py_scope.

Definition logger_info (msg : string) : Py unit :=
  λ log, (Ok tt, log ++ [LogInfo msg]).
Definition logger_warning (msg : string) : Py unit :=
  λ log, (Ok tt, log ++ [LogWarning msg]).

(** [try: body except OSError as exc: handler]: other exceptions pass. *)
Definition try_except_OSError {A} (body : Py A) (handler : string → Py A) : Py A :=
  λ log,
    match body log with
    | (Raise (OSError msg), log') => handler msg log'
    | outcome => outcome
    end.

(** [for x in xs: s = body(x, s)] *)
Fixpoint for_each {S A} (xs : list A) (body : A → S → Py S) (s : S) : Py S :=
  match xs with
  | [] => py_ret s
  | x :: xs' => (s' <- body x s;; for_each xs' body s')%py
  end.

(** ** Data model *)

(** Python floats are IEEE binary64 values. *)
Abbreviation float := spec_float.

(** Binary64 arithmetic: 53 bits of precision, every result rounded to
    the nearest value, ties to even. *)
Definition prec : Z := 53.
Definition emax : Z := 1024.

Definition float_sub : float → float → float := SFsub prec emax.
Definition float_mul : float → float → float := SFmul prec emax.

(** The binary64 value nearest to [m * 2^e], in canonical form. *)
Definition dyadic (m e : Z) : float := binary_normalize prec emax m e false.

(** [float(n)] for an [int] within the range of binary64: the conversion
    Python applies to the [int] operand of a mixed operation. *)
Definition float_of_int (n : Z) : float := dyadic n 0.

(** [x < n] for a float and an [int]: Python compares the two values
    exactly, without converting the [int]; a NaN is below nothing. *)
Definition float_lt_int (x : float) (n : Z) : bool :=
  match x with
  | S754_nan => false
  | S754_infinity s => s
  | S754_zero _ => (0 <? n)%Z
  | S754_finite s m e =>
      if (0 <=? e)%Z then (cond_Zopp s (Z.pos m) * 2 ^ e <? n)%Z
      else (cond_Zopp s (Z.pos m) <? n * 2 ^ (- e))%Z
  end.

Global Instance spec_float_eq_dec : EqDecision spec_float.
Proof. solve_decision. Defined.

Abbreviation Path := string.
Abbreviation bytes := (list Byte.byte).

(** The values [json.loads] returns and [json.dumps] accepts. *)
Inductive json :=
  | JNull
  | JBool (b : bool)
  | JInt (z : Z)
  | JFloat (f : float)
  | JStr (s : string)
  | JList (l : list json)
  | JDict (d : gmap string json).

(** [os.stat_result], the two fields the package reads. *)
Record stat_result := mkStat {
  st_size : Z;
  st_mtime : float;
}.

(** ** The runtime and the operating system

    What the package calls but does not define.  [text] is the content of a
    text file ([Path.read_text], [Path.write_text], the argument of
    [json.loads]); the package never inspects it.  [filesystem] is the state
    of the file system at the time of a call. *)

Class Platform := {
  (** hashlib: [new] raises [ValueError] on an unsupported algorithm *)
  hasher : Type;
  hashlib_new : string → result hasher;
  hasher_update : hasher → bytes → hasher;
  hasher_hexdigest : hasher → string;
  (** pathlib, pure paths *)
  Path_of_str : string → Path;
  Path_parent : Path → Path;
  (** [expanduser] raises [RuntimeError] when the home directory of the
      user it names cannot be determined *)
  Path_expanduser : Path → result Path;
  Path_relative_to : Path → Path → result Path;
  (** [path.match(pattern)]: the pattern is what the configuration holds,
      of whatever type; one that is not a glob raises *)
  Path_match : Path → json → result bool;
  (** the file system *)
  text : Type;
  filesystem : Type;
  (** [resolve] raises on a path the operating system refuses, such as
      one with an embedded null byte *)
  Path_resolve : filesystem → Path → result Path;
  Path_exists : filesystem → Path → bool;
  Path_is_file : filesystem → Path → bool;
  Path_is_symlink : filesystem → Path → bool;
  Path_rglob : filesystem → Path → string → list Path;
  Path_stat : filesystem → Path → result stat_result;
  (** [path.open("rb")] followed by [handle.read(n)] until it returns
      [b""]: the chunks read, or the [OSError] of the open or of a read *)
  Path_open_rb_chunks : filesystem → Path → Z → result (list bytes);
  Path_read_text : filesystem → Path → result text;
  Path_write_text : filesystem → Path → text → result filesystem;
  (** [mkdir(parents=True, exist_ok=True)] *)
  Path_mkdir_parents : filesystem → Path → result filesystem;
  read_text_write_text : ∀ fs p t fs',
    Path_write_text fs p t = Ok fs' → Path_read_text fs' p = Ok t;
  (** json: [dumps] with its [indent] and [sort_keys] arguments *)
  json_dumps : json → Z → bool → text;
  json_loads : text → result json;
  json_loads_dumps : ∀ v indent sort_keys,
    json_loads (json_dumps v indent sort_keys) = Ok v;
  (** builtins on dynamically typed values, fixed at the declared types *)
  py_str : json → string;
  py_str_JStr : ∀ s, py_str (JStr s) = s;
  py_int : json → result Z;
  py_int_JInt : ∀ z, py_int (JInt z) = Ok z;
  py_iter : json → result (list json);
  py_iter_JList : ∀ l, py_iter (JList l) = Ok l;
  str_upper : string → string;
  (** [time.sleep(seconds)] and [Event.wait(timeout)] with an [int]: they
      only let time pass, or raise; [sleep] raises on a negative length *)
  time_sleep : Z → result unit;
  time_sleep_negative : ∀ seconds,
    (seconds < 0)%Z → ∃ e, time_sleep seconds = Raise e;
  Event_wait : Z → result unit;
}.

(** Truth value of a JSON value: [bool(x)]. *)
Definition py_bool (x : json) : bool :=
  match x with
  | JNull => false
  | JBool b => b
  | JInt z => negb (z =? 0)%Z
  | JFloat (S754_zero _) => false
  | JFloat _ => true
  | JStr s => negb (String.eqb s "")
  | JList l => match l with [] => false | _ => true end
  | JDict d => negb (bool_decide (d = ∅))
  end.

(** [data.get(key, default)]; [data] must be a dict. *)
Definition dict_get (data : json) (key : string) (default : json) : result json :=
  match data with
  | JDict d => Ok (from_option id default (d !! key))
  | _ => Raise (AttributeError "object has no attribute 'get'")
  end.

(** [record[key]] on a loaded JSON value. *)
Definition json_getitem (record : json) (key : string) : result json :=
  match record with
  | JDict d => getitem d key
  | _ => Raise (TypeError "indices must be integers")
  end.

(** ** fim.utils *)
Module utils.
Section with_platform.
Context `{!Platform}.

Definition compute_file_hash (fs : filesystem) (path : Path) (algorithm : string)
    : result string :=
  hasher ← hashlib_new algorithm;
  chunks ← Path_open_rb_chunks fs path (1024 * 1024);
  Ok (hasher_hexdigest (foldl hasher_update hasher chunks)).

Definition should_exclude (path root : Path) (exclude_globs : list json)
    : result bool :=
  relative ← Path_relative_to path root;
  (fix loop (patterns : list json) : result bool :=
     match patterns with
     | [] => Ok false
     | pattern :: rest =>
         m ← Path_match path pattern;
         if (m : bool) then Ok true
         else m' ← Path_match relative pattern;
              if (m' : bool) then Ok true else loop rest
     end) exclude_globs.

Definition iter_files (fs : filesystem) (root : Path) (follow_symlinks : bool)
    : list Path :=
  if Path_is_file fs root then [root]
  else
    List.filter
      (λ path, Path_is_file fs path
               && (follow_symlinks || negb (Path_is_symlink fs path)))
      (Path_rglob fs root "*").

End with_platform.
End utils.

(** ** fim.config *)
Module config.

(** [exclude_globs] holds what the document lists: [load_config] does not
    look at the elements. *)
Record Config := mkConfig {
  paths : list Path;
  exclude_globs : list json;
  follow_symlinks : bool;
  hash_algorithm : string;
  baseline_file : Path;
  log_file : Path;
  scan_interval_seconds : Z;
  event_debounce_ms : Z;
}.

Section with_platform.
Context `{!Platform}.

(** [Path(p)] for a value read from JSON. *)
Definition Path_of_json (p : json) : result Path :=
  match p with
  | JStr s => Ok (Path_of_str s)
  | _ => Raise (TypeError "expected str, bytes or os.PathLike object")
  end.

Definition load_config (fs : filesystem) (config_path : Path) : result Config :=
  contents ← Path_read_text fs config_path;
  data ← json_loads contents;
  paths_value ← dict_get data "paths" (JList []);
  paths_items ← py_iter paths_value;
  paths ← comprehension
    (λ p, q ← Path_of_json p; q' ← Path_expanduser q; Path_resolve fs q')
    paths_items;
  if bool_decide (paths = []) then
    Raise (ValueError "Config must include at least one path.")
  else
    baseline_value ← dict_get data "baseline_file" (JStr "./baseline.json");
    baseline_file ← Path_of_json baseline_value ≫= Path_expanduser;
    log_value ← dict_get data "log_file" (JStr "./logs/fim.log");
    log_file ← Path_of_json log_value ≫= Path_expanduser;
    globs_value ← dict_get data "exclude_globs" (JList []);
    exclude_globs ← py_iter globs_value;
    follow_value ← dict_get data "follow_symlinks" (JBool false);
    algorithm_value ← dict_get data "hash_algorithm" (JStr "sha256");
    interval_value ← dict_get data "scan_interval_seconds" (JInt 60);
    scan_interval_seconds ← py_int interval_value;
    debounce_value ← dict_get data "event_debounce_ms" (JInt 250);
    event_debounce_ms ← py_int debounce_value;
    Ok (mkConfig paths exclude_globs (py_bool follow_value)
          (py_str algorithm_value) baseline_file log_file
          scan_interval_seconds event_debounce_ms).

End with_platform.
End config.

(** ** fim.baseline *)
Module baseline.

Record BaselineRecord := mkBaselineRecord {
  path : string;
  hash : string;
  size : Z;
  mtime : float;
}.

Global Instance BaselineRecord_eq_dec : EqDecision BaselineRecord.
Proof. solve_decision. Defined.

(** [dataclasses.asdict(record)] *)
Definition asdict (record : BaselineRecord) : json :=
  JDict {[ "path" := JStr (path record);
           "hash" := JStr (hash record);
           "size" := JInt (size record);
           "mtime" := JFloat (mtime record) ]}.

(** The fields of a loaded record at the types [BaselineRecord] declares.
    The source stores whatever JSON value a field holds; records with
    fields of other types than the declared ones are outside this
    embedding, which reports such a file as [TypeError].  What is stated
    of [load_baseline] below is stated of files whose records are at the
    declared types, or concludes that it raises on a missing field. *)
Definition as_str (v : json) : result string :=
  match v with JStr s => Ok s | _ => Raise (TypeError "expected str") end.
Definition as_int (v : json) : result Z :=
  match v with JInt z => Ok z | _ => Raise (TypeError "expected int") end.
Definition as_float (v : json) : result float :=
  match v with JFloat f => Ok f | _ => Raise (TypeError "expected float") end.

(** The body of the loop of [load_baseline]. *)
Definition load_record (record : json) : result BaselineRecord :=
  p ← json_getitem record "path" ≫= as_str;
  h ← json_getitem record "hash" ≫= as_str;
  s ← json_getitem record "size" ≫= as_int;
  m ← json_getitem record "mtime" ≫= as_float;
  Ok (mkBaselineRecord p h s m).

Section with_platform.
Context `{!Platform}.

Definition build_baseline (config : config.Config) (fs : filesystem)
    : Py (gmap string BaselineRecord) :=
  for_each (config.paths config) (λ root baseline,
    for_each (utils.iter_files fs root (config.follow_symlinks config))
      (λ path baseline,
        (excluded <- lift (utils.should_exclude path root
                             (config.exclude_globs config));;
         if (excluded : bool) then py_ret baseline
         else
           try_except_OSError
             (file_hash <- lift (utils.compute_file_hash fs path
                                   (config.hash_algorithm config));;
              stat <- lift (Path_stat fs path);;
              let record :=
                mkBaselineRecord path file_hash (st_size stat) (st_mtime stat) in
              py_ret (<[path := record]> baseline))
             (λ exc,
                logger_warning ("Skipping " +:+ path +:+ ": " +:+ exc);;
                py_ret baseline))%py)
      baseline) ∅.

Definition save_baseline (records : gmap string BaselineRecord)
    (destination : Path) (fs : filesystem) : result filesystem :=
  fs' ← Path_mkdir_parents fs (Path_parent destination);
  let payload := JDict (asdict <$> records) in
  Path_write_text fs' destination (json_dumps payload 2 true).

Definition load_baseline (baseline_path : Path) (fs : filesystem)
    : result (gmap string BaselineRecord) :=
  contents ← Path_read_text fs baseline_path;
  data ← json_loads contents;
  match data with
  | JDict d =>
      map_fold
        (λ path record (acc : result (gmap string BaselineRecord)),
           baseline ← acc;
           r ← load_record record;
           Ok (<[path := r]> baseline))
        (Ok ∅) d
  | _ => Raise (AttributeError "object has no attribute 'items'")
  end.

End with_platform.
End baseline.

(** ** fim.monitor *)
Module monitor.

Abbreviation BaselineRecord := baseline.BaselineRecord.

(** [change_type] is a [str] in the source. *)
Record Change := mkChange {
  change_type : string;
  path : string;
  details : gmap string string;
}.

Global Instance Change_eq_dec : EqDecision Change.
Proof. solve_decision. Defined.

Definition compare_baseline (baseline current : gmap string BaselineRecord)
    : result (list Change) :=
  let baseline_paths : gset string := dom baseline in
  let current_paths : gset string := dom current in
  changes ← comprehension
    (λ created_path,
       r ← getitem current created_path;
       Ok (mkChange "created" created_path {[ "hash" := baseline.hash r ]}))
    (sorted (current_paths ∖ baseline_paths));
  deleted ← comprehension
    (λ deleted_path,
       r ← getitem baseline deleted_path;
       Ok (mkChange "deleted" deleted_path {[ "hash" := baseline.hash r ]}))
    (sorted (baseline_paths ∖ current_paths));
  modified ← comprehension_if
    (λ common_path,
       baseline_record ← getitem baseline common_path;
       current_record ← getitem current common_path;
       Ok (if decide (baseline.hash baseline_record ≠ baseline.hash current_record)
           then Some (mkChange "modified" common_path
                        {[ "before" := baseline.hash baseline_record;
                           "after" := baseline.hash current_record ]})
           else None))
    (sorted (baseline_paths ∩ current_paths));
  Ok (changes ++ deleted ++ modified).

Section with_platform.
Context `{!Platform}.

Definition snapshot (config : config.Config) (fs : filesystem)
    : Py (gmap string BaselineRecord) :=
  for_each (config.paths config) (λ root snapshot_data,
    for_each (utils.iter_files fs root (config.follow_symlinks config))
      (λ path snapshot_data,
        (excluded <- lift (utils.should_exclude path root
                             (config.exclude_globs config));;
         if (excluded : bool) then py_ret snapshot_data
         else
           try_except_OSError
             (file_hash <- lift (utils.compute_file_hash fs path
                                   (config.hash_algorithm config));;
              stat <- lift (Path_stat fs path);;
              let record :=
                baseline.mkBaselineRecord path file_hash
                  (st_size stat) (st_mtime stat) in
              py_ret (<[path := record]> snapshot_data))
             (λ exc,
                logger_warning ("Skipping " +:+ path +:+ ": " +:+ exc);;
                py_ret snapshot_data))%py)
      snapshot_data) ∅.

(** The [try] block either returns a list or falls through to the final
    [return []]: [None] is falling through. *)
Definition build_event_change (baseline : gmap string BaselineRecord)
    (path : Path) (config : config.Config) (fs : filesystem)
    : Py (list Change) :=
  if negb (Path_exists fs path) then
    if bool_decide (path ∈ dom baseline) then
      (r <- lift (getitem baseline path);;
       py_ret [mkChange "deleted" path {[ "hash" := baseline.hash r ]}])%py
    else py_ret []
  else
    (returned <-
       try_except_OSError
         (file_hash <- lift (utils.compute_file_hash fs path
                               (config.hash_algorithm config));;
          let baseline_record := baseline !! path in
          match baseline_record with
          | None =>
              py_ret (Some [mkChange "created" path {[ "hash" := file_hash ]}])
          | Some baseline_record =>
              if decide (baseline.hash baseline_record ≠ file_hash) then
                py_ret (Some [mkChange "modified" path
                                {[ "before" := baseline.hash baseline_record;
                                   "after" := file_hash ]}])
              else py_ret None
          end)
         (λ exc,
            logger_warning ("Skipping " +:+ path +:+ ": " +:+ exc);;
            py_ret None);;
     match returned with
     | Some changes => py_ret changes
     | None => py_ret []
     end)%py.

End with_platform.
End monitor.

(** ** fim.reporting *)
Module reporting.
Section with_platform.
Context `{!Platform}.

(** [change.details[key]] raises [KeyError] on a missing key;
    [change.details.get('hash', '')] does not. *)
Definition format_change (change : monitor.Change) : result string :=
  let details := monitor.details change in
  if decide (monitor.change_type change = "modified") then
    before ← getitem details "before";
    after ← getitem details "after";
    Ok ("MODIFIED " +:+ monitor.path change +:+ " before=" +:+ before
          +:+ " after=" +:+ after)
  else if decide (monitor.change_type change = "created") then
    h ← getitem details "hash";
    Ok ("CREATED " +:+ monitor.path change +:+ " hash=" +:+ h)
  else if decide (monitor.change_type change = "deleted") then
    h ← getitem details "hash";
    Ok ("DELETED " +:+ monitor.path change +:+ " hash=" +:+ h)
  else if decide (monitor.change_type change = "moved") then
    from ← getitem details "from";
    to ← getitem details "to";
    Ok ("MOVED " +:+ from +:+ " -> " +:+ to +:+ " hash="
          +:+ default "" (details !! "hash"))
  else
    Ok (str_upper (monitor.change_type change) +:+ " " +:+ monitor.path change).

Definition report_changes (changes : list monitor.Change) : Py unit :=
  for_each changes
    (λ change _, (line <- lift (format_change change);; logger_info line)%py) tt.

End with_platform.
End reporting.

(** ** fim.cli: the event handler of [run_watch]

    Clock readings ([time.monotonic()]) are binary64 values.  The
    subtraction and the product of [_debounced] are those of Python's
    floats, each rounded; its comparison with the [int] window is exact. *)
Module cli.

(** A watchdog event: the fields the handler reads. *)
Record FileSystemEvent := mkEvent {
  is_directory : bool;
  src_path : string;
  dest_path : string;
}.

(** [Handler]: its only attribute is the debounce table. *)
Record Handler := mkHandler {
  _last_event : gmap string float;
}.

Definition Handler_init : Handler := mkHandler ∅.

(** [now] is the value [time.monotonic()] returns in this call.  The
    default of [get] is the [int] 0, and 1000 is an [int]: each is
    converted to a float by the operation it enters. *)
Definition _debounced (config : config.Config) (self : Handler) (path : Path)
    (now : float) : bool * Handler :=
  let last := default (float_of_int 0) (_last_event self !! path) in
  if float_lt_int (float_mul (float_sub now last) (float_of_int 1000))
       (config.event_debounce_ms config)
  then (true, self)
  else (false, mkHandler (<[path := now]> (_last_event self))).

Section with_platform.
Context `{!Platform}.

(** [on_any_event] up to the call of the classifier: the handler after
    the event, and the path handed to [build_event_change] when the event
    is neither a directory event nor debounced. *)
Definition on_any_event_call (config : config.Config) (self : Handler)
    (event : FileSystemEvent) (now : float) : Handler * option Path :=
  if is_directory event then (self, None)
  else
    let path := Path_of_str (src_path event) in
    let '(debounced, self') := _debounced config self path now in
    if (debounced : bool) then (self', None) else (self', Some path).

Definition on_any_event (baseline : gmap string baseline.BaselineRecord)
    (config : config.Config) (fs : filesystem) (self : Handler)
    (event : FileSystemEvent) (now : float) : Handler * Py unit :=
  let '(self', call) := on_any_event_call config self event now in
  (self',
   match call with
   | None => py_ret tt
   | Some path =>
       (changes <- monitor.build_event_change baseline path config fs;;
        reporting.report_changes changes)%py
   end).

Definition on_moved (event : FileSystemEvent) : Py unit :=
  if is_directory event then py_ret tt
  else
    let change :=
      monitor.mkChange "moved" (dest_path event)
        {[ "from" := src_path event; "to" := dest_path event ]} in
    reporting.report_changes [change].

(** The handler fed a sequence of events, each with the clock reading of
    its [_debounced] call: for every event, the classifier call it makes. *)
Fixpoint classifier_calls (config : config.Config) (self : Handler)
    (events : list (FileSystemEvent * float)) : list (option Path) :=
  match events with
  | [] => []
  | (event, now) :: rest =>
      let '(self', call) := on_any_event_call config self event now in
      call :: classifier_calls config self' rest
  end.

End with_platform.
End cli.

(** ** A small platform to run the package on

    One hash algorithm, [sum8] (the sum of the bytes modulo 256, in two hex
    digits); a file system that maps a path to a directory, a file of bytes,
    a text file or an entry that cannot be read; text files hold the JSON
    value itself; paths are used as written. *)
Module demo.

Definition hex_digit (n : N) : string :=
  String (nth (N.to_nat n)
            (list_ascii_of_string "0123456789abcdef") "0"%char) "".

Definition sum8_update (h : N) (chunk : bytes) : N :=
  foldl (λ acc b, ((acc + Byte.to_N b) mod 256)%N) h chunk.

Definition sum8_hexdigest (h : N) : string :=
  hex_digit (h / 16) +:+ hex_digit (h mod 16).

Definition new (algorithm : string) : result N :=
  if decide (algorithm = "sum8") then Ok 0%N
  else Raise (ValueError ("unsupported hash type " +:+ algorithm)).

Inductive node :=
  | Directory
  | RegularFile (data : bytes) (mtime : float)
  | TextFile (contents : json) (mtime : float)
  | Unreadable (error : string).

Fixpoint chunks (fuel : nat) (n : nat) (data : bytes) : list bytes :=
  match fuel, data with
  | S fuel', _ :: _ => take n data :: chunks fuel' n (drop n data)
  | _, _ => []
  end.

Definition open_rb_chunks (fs : gmap string node) (p : Path) (n : Z)
    : result (list bytes) :=
  match fs !! p with
  | Some (RegularFile data _) => Ok (chunks (length data) (Z.to_nat n) data)
  | Some (TextFile _ _) => Ok []
  | Some Directory => Raise (OSError "[Errno 21] Is a directory")
  | Some (Unreadable error) => Raise (OSError error)
  | None => Raise (OSError "[Errno 2] No such file or directory")
  end.

Definition stat (fs : gmap string node) (p : Path) : result stat_result :=
  match fs !! p with
  | Some (RegularFile data m) => Ok (mkStat (Z.of_nat (length data)) m)
  | Some (TextFile _ m) => Ok (mkStat 0 m)
  | Some Directory => Ok (mkStat 4096 (S754_zero false))
  | Some (Unreadable error) => Raise (OSError error)
  | None => Raise (OSError "[Errno 2] No such file or directory")
  end.

Definition is_file (fs : gmap string node) (p : Path) : bool :=
  match fs !! p with
  | Some (RegularFile _ _) | Some (TextFile _ _) | Some (Unreadable _) => true
  | _ => false
  end.

Definition is_prefix_of (a b : string) : bool := String.prefix a b.

Definition rglob (fs : gmap string node) (root : Path) (pattern : string)
    : list Path :=
  List.filter (λ p, is_prefix_of (root +:+ "/") p) (sorted (dom fs)).

Definition relative_to (p root : Path) : result Path :=
  if decide (p = root) then Ok "."
  else if is_prefix_of (root +:+ "/") p
  then Ok (String.substring (S (String.length root))
             (String.length p - S (String.length root)) p)
  else Raise (ValueError "is not in the subpath of the root").

Definition read_text (fs : gmap string node) (p : Path) : result json :=
  match fs !! p with
  | Some (TextFile contents _) => Ok contents
  | Some (Unreadable error) => Raise (OSError error)
  | Some _ => Raise (OSError "cannot decode")
  | None => Raise (OSError "[Errno 2] No such file or directory")
  end.

Definition write_text (fs : gmap string node) (p : Path) (contents : json)
    : result (gmap string node) :=
  match fs !! p with
  | Some Directory => Raise (OSError "[Errno 21] Is a directory")
  | Some (Unreadable error) => Raise (OSError error)
  | _ => Ok (<[p := TextFile contents (S754_zero false)]> fs)
  end.

Definition str (v : json) : string :=
  match v with
  | JStr s => s
  | JNull => "None"
  | JBool true => "True"
  | JBool false => "False"
  | _ => "<value>"
  end.

Definition int (v : json) : result Z :=
  match v with
  | JInt z => Ok z
  | JBool b => Ok (if b then 1 else 0)%Z
  | _ => Raise (TypeError "int() argument must be a number")
  end.

Definition iter (v : json) : result (list json) :=
  match v with
  | JList l => Ok l
  | JDict d => Ok (JStr <$> sorted (dom d))
  | _ => Raise (TypeError "object is not iterable")
  end.

(** A pattern matches the path it spells. *)
Definition match_ (p : Path) (pattern : json) : result bool :=
  match pattern with
  | JStr s => Ok (bool_decide (p = s))
  | _ => Raise (TypeError "expected str, bytes or os.PathLike object")
  end.

Definition sleep (seconds : Z) : result unit :=
  if (seconds <? 0)%Z then Raise (ValueError "sleep length must be non-negative")
  else Ok tt.

Definition upper_char (c : ascii) : ascii :=
  let n := N_of_ascii c in
  if ((97 <=? n) && (n <=? 122))%N then ascii_of_N (n - 32) else c.

Fixpoint upper (s : string) : string :=
  match s with
  | EmptyString => EmptyString
  | String c s' => String (upper_char c) (upper s')
  end.

Definition platform : Platform.
Proof.
  refine {|
    hasher := N;
    hashlib_new := new;
    hasher_update := sum8_update;
    hasher_hexdigest := sum8_hexdigest;
    Path_of_str := λ s, s;
    Path_parent := λ p, p;
    Path_expanduser := λ p, Ok p;
    Path_relative_to := relative_to;
    Path_match := match_;
    text := json;
    filesystem := gmap string node;
    Path_resolve := λ _ p, Ok p;
    Path_exists := λ fs p, bool_decide (is_Some (fs !! p));
    Path_is_file := is_file;
    Path_is_symlink := λ _ _, false;
    Path_rglob := rglob;
    Path_stat := stat;
    Path_open_rb_chunks := open_rb_chunks;
    Path_read_text := read_text;
    Path_write_text := write_text;
    Path_mkdir_parents := λ fs _, Ok fs;
    json_dumps := λ v _ _, v;
    json_loads := λ t, Ok t;
    py_str := str;
    py_int := int;
    py_iter := iter;
    str_upper := upper;
    time_sleep := sleep;
    Event_wait := λ _, Ok tt;
  |}; try done.
  - intros fs p t fs'. unfold write_text, read_text.
    destruct (fs !! p) as [[]|]; intros [= <-]; by rewrite lookup_insert_eq.
  - intros seconds Hneg. unfold sleep.
    rewrite (proj2 (Z.ltb_lt _ _) Hneg). eauto.
Defined.

(** A disk, two configuration documents and two baselines. *)

Definition a_time : float := S754_finite false 1 0.
Definition b_time : float := S754_finite false 3 (-1).

Definition fim_json : json :=
  JDict {[ "paths" := JList [JStr "/srv"];
           "hash_algorithm" := JStr "sum8";
           "event_debounce_ms" := JInt 250 ]}.

Definition fim_rot13_json : json :=
  JDict {[ "paths" := JList [JStr "/srv"];
           "hash_algorithm" := JStr "rot13" ]}.

Definition disk : gmap string node :=
  {[ "/etc/fim.json" := TextFile fim_json a_time;
     "/etc/fim-rot13.json" := TextFile fim_rot13_json a_time;
     "/srv" := Directory;
     "/srv/a.txt" := RegularFile [Byte.x61; Byte.x62] a_time;
     "/srv/b.txt" := RegularFile [Byte.x62] b_time;
     "/srv/locked" := Unreadable "[Errno 13] Permission denied" ]}.

Definition fim_config : config.Config :=
  config.mkConfig ["/srv"] [] false "sum8" "./baseline.json" "./logs/fim.log"
    60 250.

Definition fim_rot13_config : config.Config :=
  config.mkConfig ["/srv"] [] false "rot13" "./baseline.json" "./logs/fim.log"
    60 250.

(** The baseline of a disk on which [/srv/a.txt] held other bytes,
    [/srv/b.txt] the same, and [/srv/gone] still existed. *)
Definition trusted : gmap string baseline.BaselineRecord :=
  {[ "/srv/a.txt" := baseline.mkBaselineRecord "/srv/a.txt" "00" 2 a_time;
     "/srv/b.txt" := baseline.mkBaselineRecord "/srv/b.txt" "62" 1 b_time;
     "/srv/gone" := baseline.mkBaselineRecord "/srv/gone" "7f" 9 a_time ]}.

(** [trusted] with other sizes and modification times. *)
Definition trusted_touched : gmap string baseline.BaselineRecord :=
  {[ "/srv/a.txt" := baseline.mkBaselineRecord "/srv/a.txt" "00" 5 b_time;
     "/srv/b.txt" := baseline.mkBaselineRecord "/srv/b.txt" "62" 1 a_time;
     "/srv/gone" := baseline.mkBaselineRecord "/srv/gone" "7f" 0 b_time ]}.

Definition file_event (src : string) : cli.FileSystemEvent :=
  cli.mkEvent false src "".

(** Three events for one file, at 1000 s, 1000.125 s and 1000.3125 s:
    125 ms and then 187.5 ms apart.  The readings, their differences and
    the products with 1000 are exact in binary64. *)
Definition burst : list (cli.FileSystemEvent * float) :=
  [ (file_event "/srv/a.txt", dyadic 1000 0);
    (file_event "/srv/a.txt", dyadic 8001 (-3));
    (file_event "/srv/a.txt", dyadic 16005 (-4)) ].

(** Two events for one file at the binary64 values next to 0.3 s and
    0.6 s, [5404319552844597 * 2^-54] and [5404319552844596 * 2^-53]:
    they are [5404319552844595 * 2^-54] s apart, less than 300 ms, and the
    product of that difference with 1000 rounds to 300. *)
Definition close_pair : list (cli.FileSystemEvent * float) :=
  [ (file_event "/srv/a.txt", dyadic 5404319552844597 (-54));
    (file_event "/srv/a.txt", dyadic 5404319552844596 (-53)) ].

Definition fim_300_config : config.Config :=
  config.mkConfig ["/srv"] [] false "sum8" "./baseline.json" "./logs/fim.log"
    60 300.

End demo.

(** The mappings of [tests/test_monitor.py]. *)
Definition test_baseline : gmap string baseline.BaselineRecord :=
  {[ "/path/deleted.txt" :=
       baseline.mkBaselineRecord "/path/deleted.txt" "oldhash" 10
         (S754_finite false 1 0);
     "/path/modified.txt" :=
       baseline.mkBaselineRecord "/path/modified.txt" "oldhash" 11
         (S754_finite false 2 0) ]}.

Definition test_current : gmap string baseline.BaselineRecord :=
  {[ "/path/created.txt" :=
       baseline.mkBaselineRecord "/path/created.txt" "newhash" 12
         (S754_finite false 3 0);
     "/path/modified.txt" :=
       baseline.mkBaselineRecord "/path/modified.txt" "newhash" 11
         (S754_finite false 4 0) ]}.

(** ** Vocabulary of the statements *)

(** The Changes of a list that are about path [p]. *)
Definition changes_for (p : string) (changes : list monitor.Change)
    : list monitor.Change :=
  filter (λ c, monitor.path c = p) changes.

(** The Change the diff engine owes to path [p], per group. *)
Definition created_of (current : gmap string baseline.BaselineRecord)
    (p : string) : option monitor.Change :=
  r ← current !! p;
  Some (monitor.mkChange "created" p {[ "hash" := baseline.hash r ]}).

Definition deleted_of (baseline : gmap string baseline.BaselineRecord)
    (p : string) : option monitor.Change :=
  r ← baseline !! p;
  Some (monitor.mkChange "deleted" p {[ "hash" := baseline.hash r ]}).

Definition modified_of (baseline current : gmap string baseline.BaselineRecord)
    (p : string) : option monitor.Change :=
  rb ← baseline !! p;
  rc ← current !! p;
  if decide (baseline.hash rb ≠ baseline.hash rc)
  then Some (monitor.mkChange "modified" p
               {[ "before" := baseline.hash rb; "after" := baseline.hash rc ]})
  else None.

(** What is left of a record when [size] and [mtime] are forgotten. *)
Definition forget_size_mtime (r : baseline.BaselineRecord) : string * string :=
  (baseline.path r, baseline.hash r).

(** [B'] is [B] with the [size] and [mtime] fields of any of its records
    changed: the same keys, and under each key a record with the same
    [path] and [hash]. *)
Definition differ_only_in_size_mtime
    (B B' : gmap string baseline.BaselineRecord) : Prop :=
  forget_size_mtime <$> B' = forget_size_mtime <$> B.

(** The keys of [details] that [format_change] indexes with
    [details[key]], by [change_type]. *)
Definition indexed_keys (change_type : string) : list string :=
  if decide (change_type = "modified") then ["before"; "after"]
  else if decide (change_type = "created") then ["hash"]
  else if decide (change_type = "deleted") then ["hash"]
  else if decide (change_type = "moved") then ["from"; "to"]
  else [].

Definition keys_present (c : monitor.Change) : Prop :=
  Forall (λ key, is_Some (monitor.details c !! key))
    (indexed_keys (monitor.change_type c)).

(** [hashlib.new(algorithm)] raises the unsupported-algorithm error. *)
Definition unsupported_algorithm `{!Platform} (algorithm : string) : Prop :=
  ∃ msg, hashlib_new algorithm = Raise (ValueError msg).

(** The reading of the hash algorithm that places its check in
    [load_config]: a configuration that [load_config] returns names a
    supported algorithm, and hashing with it never raises the
    unsupported-algorithm error. *)
Definition algorithm_checked_by_load_config (P : Platform) : Prop :=
  ∀ (fs : filesystem) (config_path : Path) (cfg : config.Config),
    config.load_config fs config_path = Ok cfg →
    ¬ unsupported_algorithm (config.hash_algorithm cfg)
    ∧ ∀ (fs' : filesystem) (path : Path) msg,
        utils.compute_file_hash fs' path (config.hash_algorithm cfg)
          ≠ Raise (ValueError msg).

(** The number a finite float stands for. *)
Definition float_to_Q (x : float) : option Q :=
  match x with
  | S754_zero _ => Some 0%Q
  | S754_finite s m e => Some (inject_Z (cond_Zopp s (Z.pos m)) * 2 ^ e)%Q
  | _ => None
  end.

(** A finite clock reading as a number of seconds. *)
Definition seconds (x : float) : Q := default 0%Q (float_to_Q x).

(** [x <= y] for finite floats, by the numbers they stand for. *)
Definition float_le (x y : float) : Prop :=
  ∃ a b, float_to_Q x = Some a ∧ float_to_Q y = Some b ∧ (a <= b)%Q.

(** A float that is not below zero: a zero, a NaN, or a float with its
    sign bit clear. *)
Definition not_negative (x : float) : Prop :=
  match x with
  | S754_infinity s | S754_finite s _ _ => s = false
  | _ => True
  end.

(** Clock readings are finite and never decrease along a sequence of
    events. *)
Definition clock_monotone (events : list (cli.FileSystemEvent * float)) : Prop :=
  StronglySorted float_le (snd <$> events).

(** The test of [_debounced] on a reading [now] against an earlier
    reading [last]: [(now - last) * 1000 < config.event_debounce_ms], as
    Python evaluates it. *)
Definition within_window (cfg : config.Config) (last now : float) : bool :=
  float_lt_int (float_mul (float_sub now last) (float_of_int 1000))
    (config.event_debounce_ms cfg).

(** The reading of the debounce filter that compares an event with the
    event before it: of two file events for the same path whose clock
    readings are less than [event_debounce_ms] milliseconds apart, the
    second makes no classifier call. *)
Definition debounce_rejects_second (P : Platform) : Prop :=
  ∀ (cfg : config.Config) (events : list (cli.FileSystemEvent * float))
    (i j : nat) (ei ej : cli.FileSystemEvent) (ti tj : float),
    clock_monotone events →
    (i < j)%nat →
    events !! i = Some (ei, ti) →
    events !! j = Some (ej, tj) →
    cli.is_directory ei = false →
    cli.is_directory ej = false →
    Path_of_str (cli.src_path ei) = Path_of_str (cli.src_path ej) →
    ((seconds tj - seconds ti) * 1000
       < inject_Z (config.event_debounce_ms cfg))%Q →
    cli.classifier_calls cfg cli.Handler_init events !! j = Some None.

(** The reading that counts the window from the last classified event
    but measures it in exact arithmetic: of two file events for the same
    path whose clock readings are less than [event_debounce_ms]
    milliseconds apart, the second makes no classifier call when the
    first one made one. *)
Definition debounce_rejects_within_exact_window (P : Platform) : Prop :=
  ∀ (cfg : config.Config) (events : list (cli.FileSystemEvent * float))
    (i j : nat) (ei ej : cli.FileSystemEvent) (ti tj : float),
    clock_monotone events →
    (i < j)%nat →
    events !! i = Some (ei, ti) →
    events !! j = Some (ej, tj) →
    Path_of_str (cli.src_path ei) = Path_of_str (cli.src_path ej) →
    ((seconds tj - seconds ti) * 1000
       < inject_Z (config.event_debounce_ms cfg))%Q →
    cli.classifier_calls cfg cli.Handler_init events !! i
      = Some (Some (Path_of_str (cli.src_path ei))) →
    cli.classifier_calls cfg cli.Handler_init events !! j = Some None.

(** ** The loops of [fim.monitor] and [fim.cli] *)

Section loops.
Context `{!Platform}.

(** [monitor.polling_loop].  The loop does not end by itself: [states] are
    the file systems its successive iterations find, and the outcome is
    the log after these iterations, or the exception that ended the
    loop. *)
Definition polling_loop (config : config.Config)
    (baseline : gmap string baseline.BaselineRecord)
    (reporter : list monitor.Change → Py unit) (states : list filesystem)
    : Py unit :=
  for_each states
    (λ fs _,
       (current <- monitor.snapshot config fs;;
        changes <- lift (monitor.compare_baseline baseline current);;
        reporter changes;;
        lift (time_sleep (config.scan_interval_seconds config)))%py) tt.

(** [polling_worker] of [cli.run_watch]: its iterations until the stop
    event is set. *)
Definition polling_worker (config : config.Config)
    (baseline : gmap string baseline.BaselineRecord) (states : list filesystem)
    : Py unit :=
  for_each states
    (λ fs _,
       (current <- monitor.snapshot config fs;;
        changes <- lift (monitor.compare_baseline baseline current);;
        reporting.report_changes changes;;
        lift (Event_wait (config.scan_interval_seconds config)))%py) tt.

(** The handler after a sequence of events. *)
Fixpoint handler_after (config : config.Config) (self : cli.Handler)
    (events : list (cli.FileSystemEvent * float)) : cli.Handler :=
  match events with
  | [] => self
  | (event, now) :: rest =>
      handler_after config (cli.on_any_event_call config self event now).1 rest
  end.

(** The clock readings of the events that made a classifier call for
    path [p]. *)
Definition classified_times (config : config.Config) (self : cli.Handler)
    (events : list (cli.FileSystemEvent * float)) (p : Path) : list float :=
  omap (λ '(call, (_, now)), if decide (call = Some p) then Some now else None)
    (zip (cli.classifier_calls config self events) events).

(** A file event for path [p]. *)
Definition file_event_for (p : Path) (timed : cli.FileSystemEvent * float)
    : bool :=
  negb (cli.is_directory timed.1)
  && bool_decide (Path_of_str (cli.src_path timed.1) = p).

(** The call a file event makes when nothing is debounced. *)
Definition undebounced_call (timed : cli.FileSystemEvent * float)
    : option Path :=
  if cli.is_directory timed.1 then None
  else Some (Path_of_str (cli.src_path timed.1)).

End loops.

(** A computation that only appends to the log: its outcome and the
    records it writes do not depend on the log it starts from. *)
Definition appends {A} (m : Py A) : Prop :=
  ∀ log, m log = ((m []).1, log ++ (m []).2).

(** A warning of [snapshot] and [build_baseline] about a skipped file. *)
Definition skip_warning (record : log_record) : Prop :=
  ∃ path msg, record = LogWarning ("Skipping " +:+ path +:+ ": " +:+ msg).

(** [hashlib]'s contract for [update]: repeated calls are one call with
    the concatenation. *)
Definition update_concatenates `{!Platform} : Prop :=
  (∀ h, hasher_update h [] = h)
  ∧ ∀ h a b, hasher_update (hasher_update h a) b = hasher_update h (a ++ b).

(** The fields [load_baseline] reads from a record of the baseline file. *)
Definition required_fields : list string := ["path"; "hash"; "size"; "mtime"].

(** More configurations for the small platform. *)

(** [fim_config] that excludes [/srv/b.txt]. *)
Definition demo_excluding_config : config.Config :=
  config.mkConfig ["/srv"] [JStr "/srv/b.txt"] false "sum8" "./baseline.json"
    "./logs/fim.log" 60 250.

(** [fim_config] without a debounce window. *)
Definition demo_no_window_config : config.Config :=
  config.mkConfig ["/srv"] [] false "sum8" "./baseline.json" "./logs/fim.log"
    60 0.

(** Events for two files, interleaved. *)
Definition demo_interleaved : list (cli.FileSystemEvent * float) :=
  [ (demo.file_event "/srv/a.txt", dyadic 1000 0);
    (demo.file_event "/srv/b.txt", dyadic 16001 (-4));
    (demo.file_event "/srv/a.txt", dyadic 8001 (-3));
    (cli.mkEvent true "/srv" "", dyadic 4001 (-2));
    (demo.file_event "/srv/a.txt", dyadic 16005 (-4)) ].

(** The body of the inner loop of [snapshot] and [build_baseline]: what
    one candidate file does to the mapping and the log. *)
Definition scan_file `{!Platform} (config : config.Config) (fs : filesystem)
    (root path : Path) (data : gmap string baseline.BaselineRecord)
    : Py (gmap string baseline.BaselineRecord) :=
  (excluded <- lift (utils.should_exclude path root
                       (config.exclude_globs config));;
   if (excluded : bool) then py_ret data
   else
     try_except_OSError
       (file_hash <- lift (utils.compute_file_hash fs path
                             (config.hash_algorithm config));;
        stat <- lift (Path_stat fs path);;
        let record :=
          baseline.mkBaselineRecord path file_hash
            (st_size stat) (st_mtime stat) in
        py_ret (<[path := record]> data))
       (λ exc,
          logger_warning ("Skipping " +:+ path +:+ ": " +:+ exc);;
          py_ret data))%py.

(** A candidate of a scan: a file that [iter_files] yields under a
    configured root and that [should_exclude] lets through. *)
Definition candidate `{!Platform} (config : config.Config) (fs : filesystem)
    (root path : Path) : Prop :=
  root ∈ config.paths config
  ∧ path ∈ utils.iter_files fs root (config.follow_symlinks config)
  ∧ utils.should_exclude path root (config.exclude_globs config) = Ok false.

(** A mapping of a scan holds, under each key, the record of that path:
    the hash and the [stat] fields the file has, for a candidate file. *)
Definition recorded `{!Platform} (cfg : config.Config) (fs : filesystem)
    (data : gmap string baseline.BaselineRecord) : Prop :=
  ∀ p r, data !! p = Some r →
    baseline.path r = p
    ∧ utils.compute_file_hash fs p (config.hash_algorithm cfg)
        = Ok (baseline.hash r)
    ∧ Path_stat fs p = Ok (mkStat (baseline.size r) (baseline.mtime r))
    ∧ ∃ root, candidate cfg fs root p.

(** A candidate file is accounted for: it is in the mapping, or the log
    has the warning of the [OSError] that hashing or [stat] raised. *)
Definition accounted `{!Platform} (cfg : config.Config) (fs : filesystem)
    (p : Path) (data : gmap string baseline.BaselineRecord) (log : Logger)
    : Prop :=
  p ∈ dom data
  ∨ ∃ msg,
      LogWarning ("Skipping " +:+ p +:+ ": " +:+ msg) ∈ log
      ∧ (utils.compute_file_hash fs p (config.hash_algorithm cfg)
           = Raise (OSError msg)
         ∨ Path_stat fs p = Raise (OSError msg)).

(** More of the small platform's disk: the mapping a scan of [demo.disk]
    gives, documents that list no path or only paths, a saved baseline, a
    baseline file with a record that lacks its hash, and one whose record
    is filed under another key than its path and has a field more. *)

Definition demo_current : gmap string baseline.BaselineRecord :=
  {[ "/srv/a.txt" := baseline.mkBaselineRecord "/srv/a.txt" "c3" 2 demo.a_time;
     "/srv/b.txt" := baseline.mkBaselineRecord "/srv/b.txt" "62" 1 demo.b_time ]}.

Definition demo_no_paths_json : json := JDict {[ "paths" := JList [] ]}.

Definition demo_paths_only_json : json :=
  JDict {[ "paths" := JList (JStr <$> ["/srv"]) ]}.

Definition demo_broken_baseline_json : json :=
  JDict {[ "/srv/a.txt" :=
             JDict {[ "path" := JStr "/srv/a.txt";
                      "size" := JInt 2;
                      "mtime" := JFloat demo.a_time ]} ]}.

Definition demo_renamed_fields : gmap string json :=
  {[ "path" := JStr "/srv/a.txt";
     "hash" := JStr "c3";
     "size" := JInt 2;
     "mtime" := JFloat demo.a_time;
     "note" := JStr "renamed" ]}.

Definition demo_renamed_baseline_json : json :=
  JDict {[ "/srv/old.txt" := JDict demo_renamed_fields ]}.

Definition demo_renamed : gmap string baseline.BaselineRecord :=
  {[ "/srv/old.txt" :=
       baseline.mkBaselineRecord "/srv/a.txt" "c3" 2 demo.a_time ]}.

Definition demo_office_disk : gmap string demo.node :=
  <["/etc/no-paths.json" := demo.TextFile demo_no_paths_json demo.a_time]>
  (<["/etc/paths-only.json" := demo.TextFile demo_paths_only_json demo.a_time]>
  (<["/var/broken.json" := demo.TextFile demo_broken_baseline_json demo.a_time]>
  (<["/var/renamed.json" := demo.TextFile demo_renamed_baseline_json demo.a_time]>
  (<["/var/baseline.json" :=
       demo.TextFile (JDict (baseline.asdict <$> demo.trusted)) demo.a_time]>
   demo.disk)))).

Definition demo_created_b : monitor.Change :=
  monitor.mkChange "created" "/srv/b.txt" {[ "hash" := "62" ]}.

Definition demo_keyless : monitor.Change :=
  monitor.mkChange "modified" "/srv/a.txt" ∅.

Definition demo_skip_locked : log_record :=
  LogWarning "Skipping /srv/locked: [Errno 13] Permission denied".

(** What the diff engine and one polling cycle give on the disk. *)

Definition demo_changes : list monitor.Change :=
  [ monitor.mkChange "deleted" "/srv/gone" {[ "hash" := "7f" ]};
    monitor.mkChange "modified" "/srv/a.txt"
      {[ "before" := "00"; "after" := "c3" ]} ].

Definition demo_cycle_log : Logger :=
  [ demo_skip_locked;
    LogInfo "DELETED /srv/gone hash=7f";
    LogInfo "MODIFIED /srv/a.txt before=00 after=c3" ].

(** * Properties *)

(** ** The order of strings *)

Section string_order.

Lemma ascii_compare_refl c : Ascii.compare c c = Eq.
Proof. unfold Ascii.compare. apply N.compare_refl. Qed.

Lemma ascii_compare_lt_trans a b c :
  Ascii.compare a b = Lt → Ascii.compare b c = Lt → Ascii.compare a c = Lt.
Proof.
  unfold Ascii.compare. rewrite !N.compare_lt_iff. apply N.lt_trans.
Qed.

Lemma string_compare_refl s : String.compare s s = Eq.
Proof. induction s as [|c s IH]; simpl; [done|]. by rewrite ascii_compare_refl. Qed.

Lemma string_compare_lt_trans a b c :
  String.compare a b = Lt → String.compare b c = Lt → String.compare a c = Lt.
Proof.
  revert b c. induction a as [|x a IH]; intros [|y b] [|z c]; simpl; try done.
  destruct (Ascii.compare x y) eqn:Hxy; try done.
  - apply Ascii.compare_eq_iff in Hxy as ->.
    destruct (Ascii.compare y z); try done. apply IH.
  - destruct (Ascii.compare y z) eqn:Hyz; try done.
    + apply Ascii.compare_eq_iff in Hyz as <-. by rewrite Hxy.
    + by rewrite (ascii_compare_lt_trans _ _ _ Hxy Hyz).
Qed.

Lemma str_le_lt_eq a b : str_le a b ↔ str_lt a b ∨ a = b.
Proof.
  unfold str_le, str_lt, String.leb, String.ltb.
  destruct (String.compare a b) eqn:H.
  - apply String.compare_eq_iff in H. naive_solver.
  - naive_solver.
  - split; [done|]. intros [| ->]; [done|].
    by rewrite string_compare_refl in H.
Qed.

Lemma str_lt_irrefl a : ¬ str_lt a a.
Proof. unfold str_lt, String.ltb. by rewrite string_compare_refl. Qed.

Global Instance str_lt_trans : Transitive str_lt.
Proof.
  intros a b c. unfold str_lt, String.ltb.
  destruct (String.compare a b) eqn:Hab; try done.
  destruct (String.compare b c) eqn:Hbc; try done.
  by rewrite (string_compare_lt_trans _ _ _ Hab Hbc).
Qed.

Global Instance str_le_trans : Transitive str_le.
Proof.
  intros a b c. rewrite !str_le_lt_eq.
  intros [Hab| ->] [Hbc| ->]; eauto. left. by trans b.
Qed.

Global Instance str_le_total : Total str_le.
Proof. intros a b. apply String.leb_total. Qed.

Global Instance str_le_antisym : AntiSymm (=) str_le.
Proof. intros a b. apply String.leb_antisym. Qed.

End string_order.

(** ** [sorted] *)

Section sorted_facts.
Implicit Types s : gset string.

Lemma sorted_Permutation s : sorted s ≡ₚ elements s.
Proof. apply merge_sort_Permutation. Qed.

Lemma elem_of_sorted s p : p ∈ sorted s ↔ p ∈ s.
Proof. by rewrite sorted_Permutation, elem_of_elements. Qed.

Lemma NoDup_sorted s : NoDup (sorted s).
Proof. rewrite sorted_Permutation. apply NoDup_elements. Qed.

Lemma StronglySorted_strict (l : list string) :
  NoDup l → StronglySorted str_le l → StronglySorted str_lt l.
Proof.
  induction 2 as [|x l Hl IH Hx]; [constructor|].
  apply NoDup_cons in H as [Hnotin Hnd].
  constructor; [by apply IH|].
  apply Forall_forall. intros y Hy.
  rewrite Forall_forall in Hx.
  destruct (proj1 (str_le_lt_eq x y) (Hx y Hy)) as [| ->]; [done|].
  by destruct Hnotin.
Qed.

Lemma sorted_ascending s : StronglySorted str_lt (sorted s).
Proof.
  apply StronglySorted_strict; [apply NoDup_sorted|].
  apply StronglySorted_merge_sort; apply _.
Qed.

End sorted_facts.

(** ** Comprehensions that do not raise *)

Section comprehensions.
Context {A B : Type}.

Lemma comprehension_omap (f : A → result B) (g : A → option B) xs :
  (∀ x, x ∈ xs → ∃ y, f x = Ok y ∧ g x = Some y) →
  comprehension f xs = Ok (omap g xs).
Proof.
  induction xs as [|x xs IH]; intros Hf; simpl; [done|].
  destruct (Hf x) as (y & -> & ->); [left|]. simpl.
  rewrite IH; [done|]. intros z Hz. apply Hf. by right.
Qed.

Lemma comprehension_if_omap (f : A → result (option B)) (g : A → option B) xs :
  (∀ x, x ∈ xs → f x = Ok (g x)) →
  comprehension_if f xs = Ok (omap g xs).
Proof.
  induction xs as [|x xs IH]; intros Hf; simpl; [done|].
  rewrite (Hf x); [|left]. simpl.
  rewrite IH; [|intros z Hz; apply Hf; by right]. simpl.
  by destruct (g x).
Qed.

End comprehensions.

(** ** The diff engine *)

Section diff_engine.
Implicit Types B C : gmap string baseline.BaselineRecord.
Implicit Types p : string.

Lemma created_of_path C q c : created_of C q = Some c → monitor.path c = q.
Proof. unfold created_of. destruct (C !! q); simpl; naive_solver. Qed.

Lemma deleted_of_path B q c : deleted_of B q = Some c → monitor.path c = q.
Proof. unfold deleted_of. destruct (B !! q); simpl; naive_solver. Qed.

Lemma modified_of_path B C q c : modified_of B C q = Some c → monitor.path c = q.
Proof.
  unfold modified_of. destruct (B !! q), (C !! q); simpl; try done.
  case_decide; naive_solver.
Qed.

Lemma created_of_type C q c :
  created_of C q = Some c → monitor.change_type c = "created".
Proof. unfold created_of. destruct (C !! q); simpl; naive_solver. Qed.

Lemma deleted_of_type B q c :
  deleted_of B q = Some c → monitor.change_type c = "deleted".
Proof. unfold deleted_of. destruct (B !! q); simpl; naive_solver. Qed.

Lemma modified_of_type B C q c :
  modified_of B C q = Some c → monitor.change_type c = "modified".
Proof.
  unfold modified_of. destruct (B !! q), (C !! q); simpl; try done.
  case_decide; naive_solver.
Qed.

(** The three comprehensions never raise: every path they index is a key
    of the mapping they index. *)
Lemma compare_baseline_eq B C :
  monitor.compare_baseline B C =
    Ok (omap (created_of C) (sorted (dom C ∖ dom B))
        ++ omap (deleted_of B) (sorted (dom B ∖ dom C))
        ++ omap (modified_of B C) (sorted (dom B ∩ dom C))).
Proof.
  unfold monitor.compare_baseline.
  rewrite (comprehension_omap _ (created_of C) (sorted (dom C ∖ dom B))); simpl.
  2:{ intros q [[r Hr]%elem_of_dom _]%elem_of_sorted%elem_of_difference.
      unfold getitem, created_of. rewrite Hr. simpl. eauto. }
  rewrite (comprehension_omap _ (deleted_of B) (sorted (dom B ∖ dom C))); simpl.
  2:{ intros q [[r Hr]%elem_of_dom _]%elem_of_sorted%elem_of_difference.
      unfold getitem, deleted_of. rewrite Hr. simpl. eauto. }
  rewrite (comprehension_if_omap _ (modified_of B C)); simpl; [done|].
  intros q [[rb Hb]%elem_of_dom [rc Hc]%elem_of_dom]%elem_of_sorted%elem_of_intersection.
  unfold getitem, modified_of. rewrite Hb, Hc. simpl. by case_decide.
Qed.

Lemma changes_for_app p (l1 l2 : list monitor.Change) :
  changes_for p (l1 ++ l2) = changes_for p l1 ++ changes_for p l2.
Proof. apply filter_app. Qed.

(** A group built from a duplicate-free list of paths holds, for [p], the
    Change of [p] when [p] is in the list and nothing otherwise. *)
Lemma changes_for_omap (g : string → option monitor.Change) (l : list string) p :
  NoDup l →
  (∀ q c, g q = Some c → monitor.path c = q) →
  changes_for p (omap g l) = if decide (p ∈ l) then option_list (g p) else [].
Proof.
  intros Hnd Hg. induction Hnd as [|x l Hx Hnd IH].
  - destruct (decide (p ∈ [])) as [Hin|]; [|done]. by apply elem_of_nil in Hin.
  - assert (changes_for p (omap g (x :: l)) =
            (if decide (x = p) then option_list (g x) else [])
              ++ changes_for p (omap g l)) as ->.
    { simpl. destruct (g x) as [c|] eqn:Hc.
      - unfold changes_for. rewrite filter_cons. rewrite (Hg _ _ Hc).
        by destruct (decide (x = p)).
      - by destruct (decide (x = p)). }
    rewrite IH. destruct (decide (x = p)) as [->|Hne].
    + rewrite (decide_True (P := p ∈ p :: l)) by left.
      rewrite decide_False by done. apply app_nil_r.
    + simpl. destruct (decide (p ∈ l)) as [Hin|Hnin].
      * rewrite decide_True; [done|by right].
      * rewrite decide_False; [done|].
        intros [?|?]%elem_of_cons; congruence.
  Qed.

(** What [compare_baseline] holds for one path. *)
Lemma changes_for_compare B C p changes :
  monitor.compare_baseline B C = Ok changes →
  changes_for p changes =
    match B !! p, C !! p with
    | None, Some _ => option_list (created_of C p)
    | Some _, None => option_list (deleted_of B p)
    | Some _, Some _ => option_list (modified_of B C p)
    | None, None => []
    end.
Proof.
  rewrite compare_baseline_eq. intros [= <-].
  rewrite !changes_for_app.
  rewrite (changes_for_omap (created_of C)),
          (changes_for_omap (deleted_of B)),
          (changes_for_omap (modified_of B C));
    eauto using NoDup_sorted, created_of_path, deleted_of_path, modified_of_path.
  pose proof (elem_of_dom B p) as HB. pose proof (elem_of_dom C p) as HC.
  rewrite is_Some_alt in HB. rewrite is_Some_alt in HC.
  repeat match goal with
         | |- context [decide (p ∈ sorted ?s)] =>
             let H := fresh "Hin" in
             destruct (decide (p ∈ sorted s)) as [H|H];
             rewrite elem_of_sorted, ?elem_of_difference, ?elem_of_intersection in H
         end;
    destruct (B !! p) as [rb|], (C !! p) as [rc|];
    simpl; rewrite ?app_nil_r; try done; exfalso; intuition congruence.
Qed.

Lemma elem_of_omap_paths (g : string → option monitor.Change) (l : list string) q :
  (∀ q c, g q = Some c → monitor.path c = q) →
  q ∈ monitor.path <$> omap g l → q ∈ l.
Proof.
  intros Hg. induction l as [|x l IH]; simpl; [done|].
  destruct (g x) as [c|] eqn:Hc; simpl.
  - rewrite (Hg _ _ Hc). intros [->|?]%elem_of_cons; [left|right; auto].
  - right; auto.
Qed.

Lemma omap_paths_ascending (g : string → option monitor.Change) (l : list string) :
  (∀ q c, g q = Some c → monitor.path c = q) →
  StronglySorted str_lt l →
  StronglySorted str_lt (monitor.path <$> omap g l).
Proof.
  intros Hg. induction 1 as [|x l Hl IH Hx]; simpl; [constructor|].
  destruct (g x) as [c|] eqn:Hc; simpl; [|done].
  constructor; [done|]. rewrite (Hg _ _ Hc).
  apply Forall_forall. intros q Hq. rewrite Forall_forall in Hx.
  apply Hx. by eapply elem_of_omap_paths.
Qed.

Lemma omap_Forall_type (g : string → option monitor.Change) (t : string)
    (l : list string) :
  (∀ q c, g q = Some c → monitor.change_type c = t) →
  Forall (λ c, monitor.change_type c = t) (omap g l).
Proof.
  intros Hg. induction l as [|x l IH]; simpl; [constructor|].
  destruct (g x) as [c|] eqn:Hc; [constructor; eauto|done].
Qed.

Lemma differ_only_dom B B' : differ_only_in_size_mtime B B' → dom B' = dom B.
Proof.
  intros H. rewrite <- (dom_fmap_L forget_size_mtime B'), H. apply dom_fmap_L.
Qed.

Lemma differ_only_hash B B' p :
  differ_only_in_size_mtime B B' →
  baseline.hash <$> B' !! p = baseline.hash <$> B !! p.
Proof.
  intros H. apply (f_equal (λ m, snd <$> m !! p)) in H.
  rewrite !lookup_fmap in H.
  destruct (B !! p), (B' !! p); simpl in *; congruence.
Qed.

(** An unchanged state has no Changes. *)
Lemma compare_baseline_unchanged B : monitor.compare_baseline B B = Ok [].
Proof.
  rewrite compare_baseline_eq, difference_diag_L.
  unfold sorted at 1 2. rewrite elements_empty. simpl.
  assert (∀ p, modified_of B B p = None) as Hsame.
  { intros p. unfold modified_of. destruct (B !! p); simpl; [|done].
    by rewrite decide_False by (intros Hne; by apply Hne). }
  f_equal. induction (sorted (dom B ∩ dom B)) as [|p l IH]; simpl; [done|].
  by rewrite Hsame.
Qed.

End diff_engine.

(** C1.  [compare_baseline(B, C)] returns a list that holds, for each path:
    exactly one [created] Change carrying the current hash when the path is
    in [C] only; exactly one [deleted] Change carrying the baseline hash when
    it is in [B] only; exactly one [modified] Change carrying the before and
    after hashes when it is in both with different hashes; and no Change
    when it is in both with equal hashes (or in neither). *)
Theorem compare_baseline_partition (B C : gmap string baseline.BaselineRecord) :
  ∃ changes, monitor.compare_baseline B C = Ok changes ∧
    ∀ p, changes_for p changes =
      match B !! p, C !! p with
      | None, Some rc =>
          [monitor.mkChange "created" p {[ "hash" := baseline.hash rc ]}]
      | Some rb, None =>
          [monitor.mkChange "deleted" p {[ "hash" := baseline.hash rb ]}]
      | Some rb, Some rc =>
          if decide (baseline.hash rb = baseline.hash rc) then []
          else [monitor.mkChange "modified" p
                  {[ "before" := baseline.hash rb; "after" := baseline.hash rc ]}]
      | None, None => []
      end.
Proof.
  eexists. split; [apply compare_baseline_eq|]. intros p.
  rewrite (changes_for_compare B C p _ (compare_baseline_eq B C)).
  unfold created_of, deleted_of, modified_of.
  destruct (B !! p) as [rb|], (C !! p) as [rc|]; simpl; try done.
  by destruct (decide (baseline.hash rb = baseline.hash rc)),
              (decide (baseline.hash rb ≠ baseline.hash rc)).
Qed.

(** C7.  [compare_baseline(B, C)] returns a list with at most one Change
    whose path is [p], for every path [p]. *)
Theorem compare_baseline_one_change_per_path
    (B C : gmap string baseline.BaselineRecord) :
  ∃ changes, monitor.compare_baseline B C = Ok changes ∧
    ∀ p, (length (changes_for p changes) ≤ 1)%nat.
Proof.
  eexists. split; [apply compare_baseline_eq|]. intros p.
  rewrite (changes_for_compare B C p _ (compare_baseline_eq B C)).
  destruct (B !! p), (C !! p); simpl; try lia;
    match goal with |- context [option_list ?o] => destruct o end; simpl; lia.
Qed.

(** C3.  The list [compare_baseline(B, C)] returns is a block of [created]
    Changes, then a block of [deleted] Changes, then a block of [modified]
    Changes, and in each block the paths ascend in the lexicographic order
    of strings. *)
Theorem compare_baseline_ordered (B C : gmap string baseline.BaselineRecord) :
  ∃ created deleted modified,
    monitor.compare_baseline B C = Ok (created ++ deleted ++ modified)
    ∧ Forall (λ c, monitor.change_type c = "created") created
    ∧ Forall (λ c, monitor.change_type c = "deleted") deleted
    ∧ Forall (λ c, monitor.change_type c = "modified") modified
    ∧ StronglySorted str_lt (monitor.path <$> created)
    ∧ StronglySorted str_lt (monitor.path <$> deleted)
    ∧ StronglySorted str_lt (monitor.path <$> modified).
Proof.
  do 3 eexists. split; [apply compare_baseline_eq|].
  split_and!;
    eauto using omap_Forall_type, created_of_type, deleted_of_type,
      modified_of_type, omap_paths_ascending, created_of_path, deleted_of_path,
      modified_of_path, sorted_ascending.
Qed.

(** C6.  Changing only [size] and [mtime] fields of records of [B] and [C]
    does not change what [compare_baseline] returns. *)
Theorem compare_baseline_ignores_size_mtime
    (B B' C C' : gmap string baseline.BaselineRecord) :
  differ_only_in_size_mtime B B' →
  differ_only_in_size_mtime C C' →
  monitor.compare_baseline B' C' = monitor.compare_baseline B C.
Proof.
  intros HB HC. rewrite !compare_baseline_eq.
  rewrite (differ_only_dom _ _ HB), (differ_only_dom _ _ HC).
  pose proof (λ p, differ_only_hash _ _ p HB) as HhB.
  pose proof (λ p, differ_only_hash _ _ p HC) as HhC.
  do 2 f_equal; [|f_equal]; apply list_omap_ext, Forall2_same_length_lookup;
    (split; [done|]); intros i p q Hp Hq; assert (q = p) as -> by congruence;
    specialize (HhB p); specialize (HhC p);
    unfold created_of, deleted_of, modified_of;
    destruct (B !! p), (B' !! p), (C !! p), (C' !! p); simplify_eq/=; try done.
  all: repeat case_decide; congruence.
Qed.

(** ** The incremental classifier *)

Section classifier.
Context `{!Platform}.
Implicit Types B : gmap string baseline.BaselineRecord.
Implicit Types cfg : config.Config.

(** The outcomes of [build_event_change], by what the file system and the
    hasher answer. *)
Lemma build_event_change_eq B p cfg fs log :
  monitor.build_event_change B p cfg fs log =
    if Path_exists fs p then
      match utils.compute_file_hash fs p (config.hash_algorithm cfg) with
      | Ok h =>
          (Ok (match B !! p with
               | None => [monitor.mkChange "created" p {[ "hash" := h ]}]
               | Some r =>
                   if decide (baseline.hash r = h) then []
                   else [monitor.mkChange "modified" p
                           {[ "before" := baseline.hash r; "after" := h ]}]
               end), log)
      | Raise (OSError msg) =>
          (Ok [], log ++ [LogWarning ("Skipping " +:+ p +:+ ": " +:+ msg)])
      | Raise e => (Raise e, log)
      end
    else
      (Ok (match B !! p with
           | Some r => [monitor.mkChange "deleted" p {[ "hash" := baseline.hash r ]}]
           | None => []
           end), log).
Proof.
  unfold monitor.build_event_change.
  destruct (Path_exists fs p); simpl.
  - unfold py_bind, try_except_OSError, lift, py_ret, logger_warning.
    destruct (utils.compute_file_hash fs p _) as [h|e]; simpl.
    + destruct (B !! p) as [r|]; simpl; [|done].
      by destruct (decide (baseline.hash r ≠ h)), (decide (baseline.hash r = h)).
    + by destruct e.
  - destruct (B !! p) as [r|] eqn:Hr.
    + rewrite bool_decide_eq_true_2 by (by eapply elem_of_dom_2).
      unfold py_bind, lift, getitem, py_ret. by rewrite Hr.
    + by rewrite bool_decide_eq_false_2 by (by apply not_elem_of_dom).
Qed.

End classifier.

(** C2.  [build_event_change(B, p)]: when [p] does not exist, one [deleted]
    Change with the hash of [B[p]] if [p] is in [B], the empty list if not;
    when [p] exists and is hashed to [h], one [created] Change if [p] is not
    in [B], one [modified] Change with the before and after hashes if [B[p]]
    has another hash, the empty list if the hashes match; when hashing fails
    with an [OSError], a warning is logged and the empty list returned. *)
Theorem build_event_change_classifies `{!Platform}
    (B : gmap string baseline.BaselineRecord) (p : Path)
    (cfg : config.Config) (fs : filesystem) (log : Logger) :
  (Path_exists fs p = false →
     (∀ r, B !! p = Some r →
        monitor.build_event_change B p cfg fs log =
          (Ok [monitor.mkChange "deleted" p {[ "hash" := baseline.hash r ]}], log))
     ∧ (B !! p = None →
        monitor.build_event_change B p cfg fs log = (Ok [], log)))
  ∧ (Path_exists fs p = true →
     (∀ h, utils.compute_file_hash fs p (config.hash_algorithm cfg) = Ok h →
        (B !! p = None →
           monitor.build_event_change B p cfg fs log =
             (Ok [monitor.mkChange "created" p {[ "hash" := h ]}], log))
        ∧ (∀ r, B !! p = Some r → baseline.hash r ≠ h →
           monitor.build_event_change B p cfg fs log =
             (Ok [monitor.mkChange "modified" p
                    {[ "before" := baseline.hash r; "after" := h ]}], log))
        ∧ (∀ r, B !! p = Some r → baseline.hash r = h →
           monitor.build_event_change B p cfg fs log = (Ok [], log)))
     ∧ (∀ msg,
          utils.compute_file_hash fs p (config.hash_algorithm cfg)
            = Raise (OSError msg) →
          monitor.build_event_change B p cfg fs log =
            (Ok [], log ++ [LogWarning ("Skipping " +:+ p +:+ ": " +:+ msg)]))).
Proof.
  rewrite build_event_change_eq. split; intros ->.
  - split; [intros r ->|intros ->]; done.
  - split; [intros h ->|intros msg ->]; [|done].
    split_and!; [intros ->|intros r -> Hne|intros r -> Heq]; try done.
    + by rewrite decide_False.
    + by rewrite decide_True.
Qed.

(** ** Reporting *)

Section reporting_facts.
Context `{!Platform}.

Lemma format_change_ok c :
  keys_present c → ∃ line, reporting.format_change c = Ok line.
Proof.
  unfold keys_present, indexed_keys, reporting.format_change, getitem.
  repeat case_decide; rewrite ?Forall_cons; intros Hkeys;
    repeat match goal with
           | H : _ ∧ _ |- _ => destruct H
           | H : is_Some _ |- _ => destruct H as [? ->]
           end; simpl; eauto.
Qed.

Lemma created_of_keys C q c : created_of C q = Some c → keys_present c.
Proof.
  unfold created_of. destruct (C !! q); simpl; [|done]. intros [= <-].
  repeat constructor. by eexists.
Qed.

Lemma deleted_of_keys B q c : deleted_of B q = Some c → keys_present c.
Proof.
  unfold deleted_of. destruct (B !! q); simpl; [|done]. intros [= <-].
  repeat constructor. by eexists.
Qed.

Lemma modified_of_keys B C q c : modified_of B C q = Some c → keys_present c.
Proof.
  unfold modified_of. destruct (B !! q), (C !! q); simpl; try done.
  case_decide; [|done]. intros [= <-].
  repeat constructor; by eexists.
Qed.

Lemma compare_baseline_keys B C changes c :
  monitor.compare_baseline B C = Ok changes → c ∈ changes → keys_present c.
Proof.
  rewrite compare_baseline_eq. intros [= <-].
  rewrite !elem_of_app, !list_elem_of_omap.
  intros [(q & _ & Hc)|[(q & _ & Hc)|(q & _ & Hc)]];
    eauto using created_of_keys, deleted_of_keys, modified_of_keys.
Qed.

Lemma build_event_change_keys B p cfg fs log changes log' c :
  monitor.build_event_change B p cfg fs log = (Ok changes, log') →
  c ∈ changes → keys_present c.
Proof.
  rewrite build_event_change_eq.
  destruct (Path_exists fs p).
  - destruct (utils.compute_file_hash fs p _) as [h|[]]; intros [= <- _];
      try (by intros ?%elem_of_nil).
    destruct (B !! p) as [r|]; [case_decide|];
      intros Hc; decompose_list_elem_of; subst; repeat constructor; by eexists.
  - intros [= <- _]. destruct (B !! p) as [r|];
      intros Hc; decompose_list_elem_of; subst; repeat constructor; by eexists.
Qed.

End reporting_facts.

(** C10.  Every Change that [compare_baseline] or [build_event_change]
    returns has in [details] the keys [format_change] indexes for its
    [change_type], and [format_change] returns a line for it: it raises no
    [KeyError]. *)
Theorem format_change_total `{!Platform}
    (B C : gmap string baseline.BaselineRecord) (p : Path)
    (cfg : config.Config) (fs : filesystem) (log log' : Logger)
    (changes : list monitor.Change) (c : monitor.Change) :
  monitor.compare_baseline B C = Ok changes
    ∨ monitor.build_event_change B p cfg fs log = (Ok changes, log') →
  c ∈ changes →
  keys_present c ∧ ∃ line, reporting.format_change c = Ok line.
Proof.
  intros Hcore Hc.
  assert (keys_present c) as Hkeys.
  { destruct Hcore; eauto using compare_baseline_keys, build_event_change_keys. }
  split; [done|]. by apply format_change_ok.
Qed.

(** ** The baseline store *)

Section baseline_store.
Context `{!Platform}.

Lemma load_record_asdict r : baseline.load_record (baseline.asdict r) = Ok r.
Proof.
  destruct r as [p h s m].
  unfold baseline.load_record, baseline.asdict, json_getitem, getitem; simpl.
  by simplify_map_eq.
Qed.

(** The loop of [load_baseline] over the payload of [save_baseline]. *)
Lemma load_records_asdict (B : gmap string baseline.BaselineRecord) :
  map_fold
    (λ path record (acc : result (gmap string baseline.BaselineRecord)),
       baseline ← acc;
       r ← baseline.load_record record;
       Ok (<[path := r]> baseline))
    (Ok ∅) (baseline.asdict <$> B) = Ok B.
Proof.
  rewrite map_fold_fmap.
  apply (map_fold_weak_ind (λ acc m, acc = Ok m)); [done|].
  intros p r m acc _ ->. simpl. by rewrite load_record_asdict.
Qed.

End baseline_store.

(** C5.  Saving a non-empty baseline [B] with [save_baseline] and loading
    the written file with [load_baseline] returns [B]: the same keys, and
    for each key the record with the same [path], [hash], [size] and
    [mtime]. *)
Theorem save_load_roundtrip `{!Platform}
    (B : gmap string baseline.BaselineRecord) (destination : Path)
    (fs fs' : filesystem) :
  B ≠ ∅ →
  baseline.save_baseline B destination fs = Ok fs' →
  baseline.load_baseline destination fs' = Ok B.
Proof.
  intros _. unfold baseline.save_baseline, baseline.load_baseline.
  destruct (Path_mkdir_parents fs _) as [fs1|]; simpl; [|done].
  intros Hwrite. rewrite (read_text_write_text _ _ _ _ Hwrite). simpl.
  rewrite json_loads_dumps. simpl. apply load_records_asdict.
Qed.

(** C9.  [build_baseline(config, logger)] and [snapshot(config, logger)]
    are equal for every configuration, file system and logger: the same
    outcome (mapping or exception) and the same log. *)
Theorem build_baseline_is_snapshot `{!Platform}
    (cfg : config.Config) (fs : filesystem) (logger : Logger) :
  baseline.build_baseline cfg fs logger = monitor.snapshot cfg fs logger.
Proof. reflexivity. Qed.

(** ** The debounce filter *)

Section debounce.
Context `{!Platform}.
Implicit Types cfg : config.Config.
Implicit Types self : cli.Handler.
Implicit Types events : list (cli.FileSystemEvent * float).

(** [on_any_event_call] on a file event: the test of [_debounced] is
    taken against the table entry of the path, or against 0. *)
Lemma on_any_event_call_file cfg self e t :
  cli.is_directory e = false →
  cli.on_any_event_call cfg self e t =
    let p := Path_of_str (cli.src_path e) in
    if within_window cfg
         (default (float_of_int 0) (cli._last_event self !! p)) t
    then (self, None)
    else (cli.mkHandler (<[p := t]> (cli._last_event self)), Some p).
Proof.
  intros Hfile. unfold cli.on_any_event_call, cli._debounced, within_window.
  rewrite Hfile. simpl. by destruct (float_lt_int _ _).
Qed.

(** An event that reaches the classifier: it is a file event, it is not
    within the window of the table entry of its path, and it becomes the
    table entry. *)
Lemma on_any_event_call_accepted cfg self e t self' p :
  cli.on_any_event_call cfg self e t = (self', Some p) →
  p = Path_of_str (cli.src_path e)
  ∧ cli.is_directory e = false
  ∧ cli._last_event self' = <[p := t]> (cli._last_event self)
  ∧ within_window cfg
      (default (float_of_int 0) (cli._last_event self !! p)) t = false.
Proof.
  destruct (cli.is_directory e) eqn:Hdir.
  { unfold cli.on_any_event_call. by rewrite Hdir. }
  rewrite on_any_event_call_file by done. simpl.
  destruct (within_window _ _ _) eqn:Hwin; [done|].
  by intros [= <- <-].
Qed.

(** An event that does not reach the classifier leaves the table as it
    is. *)
Lemma on_any_event_call_rejected cfg self e t self' :
  cli.on_any_event_call cfg self e t = (self', None) → self' = self.
Proof.
  destruct (cli.is_directory e) eqn:Hdir.
  { unfold cli.on_any_event_call. rewrite Hdir. by intros [= <-]. }
  rewrite on_any_event_call_file by done. simpl.
  destruct (within_window _ _ _); [by intros [= <-]|done].
Qed.

(** An event that makes no classifier call for [p] leaves the table entry
    of [p] as it is. *)
Lemma other_call_keeps_entry cfg self e t p :
  (cli.on_any_event_call cfg self e t).2 ≠ Some p →
  cli._last_event (cli.on_any_event_call cfg self e t).1 !! p
    = cli._last_event self !! p.
Proof.
  destruct (cli.on_any_event_call cfg self e t) as [self' [q|]] eqn:Hcall;
    simpl; intros Hother.
  - apply on_any_event_call_accepted in Hcall as (_ & _ & -> & _).
    apply lookup_insert_ne. congruence.
  - by apply on_any_event_call_rejected in Hcall as ->.
Qed.

Lemma classifier_calls_cons cfg self e t events :
  cli.classifier_calls cfg self ((e, t) :: events) =
    (cli.on_any_event_call cfg self e t).2
      :: cli.classifier_calls cfg (cli.on_any_event_call cfg self e t).1 events.
Proof. simpl. by destruct (cli.on_any_event_call cfg self e t). Qed.

(** A file event that follows no classifier call for its path is tested
    against the table entry the handler started with. *)
Lemma classifier_call_after_entry cfg events : ∀ self j e t,
  events !! j = Some (e, t) →
  cli.is_directory e = false →
  (∀ k, (k < j)%nat →
     cli.classifier_calls cfg self events !! k
       ≠ Some (Some (Path_of_str (cli.src_path e)))) →
  cli.classifier_calls cfg self events !! j =
    Some (if within_window cfg
               (default (float_of_int 0)
                  (cli._last_event self !! Path_of_str (cli.src_path e))) t
          then None else Some (Path_of_str (cli.src_path e))).
Proof.
  induction events as [|[e0 t0] events IH]; intros self j e t Hj Hfile Hnone;
    [done|].
  rewrite classifier_calls_cons in Hnone |- *. destruct j as [|j]; simpl in *.
  - injection Hj as -> ->. rewrite on_any_event_call_file by done. simpl.
    by destruct (within_window _ _ _).
  - rewrite (IH _ j e t Hj Hfile).
    + rewrite other_call_keeps_entry; [done|].
      intros Hcall. apply (Hnone 0%nat); [lia|]. simpl. by rewrite Hcall.
    + intros k Hk. apply (Hnone (S k)). lia.
Qed.

(** A file event whose path had its last classifier call at event [i] is
    tested against the clock reading of event [i]. *)
Lemma classifier_call_after_call cfg events : ∀ self i j ei ti ej tj,
  (i < j)%nat →
  events !! i = Some (ei, ti) →
  events !! j = Some (ej, tj) →
  cli.is_directory ej = false →
  cli.classifier_calls cfg self events !! i
    = Some (Some (Path_of_str (cli.src_path ej))) →
  (∀ k, (i < k < j)%nat →
     cli.classifier_calls cfg self events !! k
       ≠ Some (Some (Path_of_str (cli.src_path ej)))) →
  cli.classifier_calls cfg self events !! j =
    Some (if within_window cfg ti tj
          then None else Some (Path_of_str (cli.src_path ej))).
Proof.
  induction events as [|[e0 t0] events IH];
    intros self i j ei ti ej tj Hij Hi Hj Hfile Hcall Hnone; [done|].
  destruct j as [|j]; [lia|].
  rewrite classifier_calls_cons in Hcall, Hnone |- *.
  destruct i as [|i]; simpl in *.
  - injection Hi as -> ->. injection Hcall as Hcall.
    destruct (cli.on_any_event_call cfg self ei ti) as [self' c] eqn:Hstep.
    simpl in *. subst c.
    apply on_any_event_call_accepted in Hstep as (_ & _ & Htable & _).
    rewrite (classifier_call_after_entry cfg events self' j ej tj Hj Hfile).
    + by rewrite Htable, lookup_insert_eq.
    + intros k Hk. apply (Hnone (S k)). lia.
  - apply (IH _ i j ei ti ej tj); try done; [lia|].
    intros k Hk. apply (Hnone (S k)). lia.
Qed.

End debounce.

(** C8, as the handler has it.  Of two file events for the same path, the
    first of which is the last event of that path that reached the
    classifier before the second, the second makes no classifier call
    exactly when the test of [_debounced] on the two clock readings,
    [(tj - ti) * 1000 < event_debounce_ms] evaluated in binary64, holds.
    Events of the path that were dropped in between do not restart the
    window. *)
Theorem debounce_rejects_after_classified `{!Platform}
    (cfg : config.Config) (events : list (cli.FileSystemEvent * float))
    (i j : nat) (ei ej : cli.FileSystemEvent) (ti tj : float) :
  (i < j)%nat →
  events !! i = Some (ei, ti) →
  events !! j = Some (ej, tj) →
  cli.is_directory ej = false →
  Path_of_str (cli.src_path ei) = Path_of_str (cli.src_path ej) →
  cli.classifier_calls cfg cli.Handler_init events !! i
    = Some (Some (Path_of_str (cli.src_path ei))) →
  (∀ k, (i < k < j)%nat →
     cli.classifier_calls cfg cli.Handler_init events !! k
       ≠ Some (Some (Path_of_str (cli.src_path ei)))) →
  cli.classifier_calls cfg cli.Handler_init events !! j
    = Some (if within_window cfg ti tj
            then None else Some (Path_of_str (cli.src_path ej))).
Proof.
  intros Hij Hi Hj Hfile Hpath Hfirst Hnone. rewrite Hpath in Hfirst, Hnone.
  by apply (classifier_call_after_call cfg events _ i j ei ti ej tj).
Qed.

(** ** Configuration loading and the hash algorithm *)

Section hash_algorithm.
Context `{!Platform}.

(** [load_config] passes the algorithm entry of the document on as it
    is. *)
Lemma load_config_hash_algorithm fs config_path contents d cfg :
  Path_read_text fs config_path = Ok contents →
  json_loads contents = Ok (JDict d) →
  config.load_config fs config_path = Ok cfg →
  config.hash_algorithm cfg
    = py_str (from_option id (JStr "sha256") (d !! "hash_algorithm")).
Proof.
  intros Hread Hloads. unfold config.load_config.
  rewrite Hread. simpl. rewrite Hloads. simpl.
  repeat match goal with
         | |- context [mbind _ ?m] =>
             lazymatch m with
             | Ok _ => fail
             | _ => destruct m; simpl; [|done]
             end
         | |- context [bool_decide ?P] => destruct (bool_decide P); [done|]
         | |- context [fmap _ ?m] => destruct m; simpl; [|done]
         end.
  by intros [= <-].
Qed.

(** The unsupported-algorithm error of [hashlib.new] is the outcome of
    [compute_file_hash], whatever the file. *)
Lemma compute_file_hash_unsupported fs path algorithm msg :
  hashlib_new algorithm = Raise (ValueError msg) →
  utils.compute_file_hash fs path algorithm = Raise (ValueError msg).
Proof. unfold utils.compute_file_hash. by intros ->. Qed.

End hash_algorithm.

(** C4, as the code has it.  [load_config] does not check [hash_algorithm]:
    the configuration it returns carries [str()] of the document's
    [hash_algorithm] entry (default [sha256]) as it is.  When that
    identifier is unsupported, every [compute_file_hash] call raises the
    unsupported-algorithm error, file by file, and [build_event_change]
    on an existing path lets it pass. *)
Theorem unsupported_algorithm_fails_per_file `{!Platform}
    (fs : filesystem) (config_path : Path) (contents : text)
    (d : gmap string json) (cfg : config.Config) :
  Path_read_text fs config_path = Ok contents →
  json_loads contents = Ok (JDict d) →
  config.load_config fs config_path = Ok cfg →
  config.hash_algorithm cfg
    = py_str (from_option id (JStr "sha256") (d !! "hash_algorithm"))
  ∧ ∀ msg, hashlib_new (config.hash_algorithm cfg) = Raise (ValueError msg) →
      ∀ (fs' : filesystem) (path : Path),
        utils.compute_file_hash fs' path (config.hash_algorithm cfg)
          = Raise (ValueError msg)
        ∧ ∀ B log, Path_exists fs' path = true →
            monitor.build_event_change B path cfg fs' log
              = (Raise (ValueError msg), log).
Proof.
  intros Hread Hloads Hcfg.
  split; [by eapply load_config_hash_algorithm|].
  intros msg Hnew fs' path.
  pose proof (compute_file_hash_unsupported fs' path _ _ Hnew) as Hhash.
  split; [done|]. intros B log Hexists.
  by rewrite build_event_change_eq, Hexists, Hhash.
Qed.

(** * The package at work

    The statements above applied to the small platform, and the readings of
    the hash algorithm check and of the debounce filter that the code does
    not satisfy. *)

Section at_work.
#[local] Existing Instance demo.platform.

(** The debounce window is measured in floating point.  The two events of
    [demo.close_pair] are both classified with a window of 300 ms,
    although their clock readings are less than 300 ms apart: the product
    of the difference of the readings with 1000 rounds to 300. *)
Example close_pair_is_classified_twice :
  cli.classifier_calls demo.fim_300_config cli.Handler_init demo.close_pair
    = [Some "/srv/a.txt"; Some "/srv/a.txt"]
  ∧ ((seconds (dyadic 5404319552844596 (-53))
      - seconds (dyadic 5404319552844597 (-54))) * 1000 < 300)%Q
  ∧ float_mul
      (float_sub (dyadic 5404319552844596 (-53))
         (dyadic 5404319552844597 (-54)))
      (float_of_int 1000)
    = dyadic 300 0.
Proof. split_and!; [vm_compute; reflexivity|by vm_compute|vm_compute; reflexivity]. Qed.

(** The test of [tests/test_monitor.py]. *)
Example test_compare_baseline_emits_created_deleted_modified :
  (changes ← monitor.compare_baseline test_baseline test_current;
   Ok (map (λ change, (monitor.change_type change, monitor.path change)) changes))
  = Ok [ ("created", "/path/created.txt");
         ("deleted", "/path/deleted.txt");
         ("modified", "/path/modified.txt") ].
Proof. vm_compute. reflexivity. Qed.

Example report_of_test_changes :
  (changes ← monitor.compare_baseline test_baseline test_current;
   comprehension reporting.format_change changes)
  = Ok [ "CREATED /path/created.txt hash=newhash";
         "DELETED /path/deleted.txt hash=oldhash";
         "MODIFIED /path/modified.txt before=oldhash after=newhash" ].
Proof. vm_compute. reflexivity. Qed.

Example compare_baseline_same :
  monitor.compare_baseline demo.trusted demo.trusted = Ok [].
Proof. vm_compute. reflexivity. Qed.

Example snapshot_skips_unreadable :
  (current ← (monitor.snapshot demo.fim_config demo.disk []).1;
   Ok (sorted (dom current)),
   (monitor.snapshot demo.fim_config demo.disk []).2)
  = (Ok ["/srv/a.txt"; "/srv/b.txt"],
     [LogWarning "Skipping /srv/locked: [Errno 13] Permission denied"]).
Proof. vm_compute. reflexivity. Qed.

End at_work.

Section witnesses.
#[local] Existing Instance demo.platform.

(** C2 on the disk: a vanished tracked file, an untracked missing path, a
    new file, a changed file, an unchanged file, an unreadable file. *)
Lemma build_event_change_classifies_witness :
  monitor.build_event_change demo.trusted "/srv/gone" demo.fim_config demo.disk []
    = (Ok [monitor.mkChange "deleted" "/srv/gone" {[ "hash" := "7f" ]}], [])
  ∧ monitor.build_event_change demo.trusted "/srv/none" demo.fim_config demo.disk []
    = (Ok [], [])
  ∧ monitor.build_event_change ∅ "/srv/b.txt" demo.fim_config demo.disk []
    = (Ok [monitor.mkChange "created" "/srv/b.txt" {[ "hash" := "62" ]}], [])
  ∧ monitor.build_event_change demo.trusted "/srv/a.txt" demo.fim_config demo.disk []
    = (Ok [monitor.mkChange "modified" "/srv/a.txt"
             {[ "before" := "00"; "after" := "c3" ]}], [])
  ∧ monitor.build_event_change demo.trusted "/srv/b.txt" demo.fim_config demo.disk []
    = (Ok [], [])
  ∧ monitor.build_event_change demo.trusted "/srv/locked" demo.fim_config demo.disk []
    = (Ok [],
       [LogWarning "Skipping /srv/locked: [Errno 13] Permission denied"]).
Proof.
  split_and!.
  - apply (proj1 (proj1 (@build_event_change_classifies demo.platform demo.trusted "/srv/gone"
                           demo.fim_config demo.disk []) eq_refl)
             (baseline.mkBaselineRecord "/srv/gone" "7f" 9 demo.a_time)).
    vm_compute. reflexivity.
  - apply (proj2 (proj1 (@build_event_change_classifies demo.platform demo.trusted "/srv/none"
                           demo.fim_config demo.disk []) eq_refl)).
    vm_compute. reflexivity.
  - apply (proj1 (proj1 (proj2 (@build_event_change_classifies demo.platform ∅ "/srv/b.txt"
                                  demo.fim_config demo.disk []) eq_refl)
                    "62" eq_refl)).
    vm_compute. reflexivity.
  - apply (proj1 (proj2 (proj1 (proj2 (@build_event_change_classifies demo.platform demo.trusted
                                         "/srv/a.txt" demo.fim_config demo.disk [])
                                  eq_refl) "c3" eq_refl))
             (baseline.mkBaselineRecord "/srv/a.txt" "00" 2 demo.a_time)).
    + vm_compute. reflexivity.
    + vm_compute. discriminate.
  - apply (proj2 (proj2 (proj1 (proj2 (@build_event_change_classifies demo.platform demo.trusted
                                         "/srv/b.txt" demo.fim_config demo.disk [])
                                  eq_refl) "62" eq_refl))
             (baseline.mkBaselineRecord "/srv/b.txt" "62" 1 demo.b_time)).
    + vm_compute. reflexivity.
    + vm_compute. reflexivity.
  - apply (proj2 (proj2 (@build_event_change_classifies demo.platform demo.trusted "/srv/locked"
                           demo.fim_config demo.disk []) eq_refl)
             "[Errno 13] Permission denied" eq_refl).
Defined.

(** C6 on two baselines that differ in sizes and modification times. *)
Lemma compare_baseline_ignores_size_mtime_witness :
  differ_only_in_size_mtime demo.trusted demo.trusted_touched
  ∧ differ_only_in_size_mtime test_current test_current
  ∧ monitor.compare_baseline demo.trusted_touched test_current
    = monitor.compare_baseline demo.trusted test_current.
Proof.
  assert (differ_only_in_size_mtime demo.trusted demo.trusted_touched) as H1
    by (vm_compute; reflexivity).
  assert (differ_only_in_size_mtime test_current test_current) as H2
    by reflexivity.
  split_and!; [exact H1|exact H2|].
  exact (compare_baseline_ignores_size_mtime _ _ _ _ H1 H2).
Defined.

(** C10 on the changes of the test and on a change of the classifier. *)
Lemma format_change_total_witness :
  let c := monitor.mkChange "modified" "/srv/a.txt"
             {[ "before" := "00"; "after" := "c3" ]} in
  keys_present c ∧ ∃ line, reporting.format_change c = Ok line.
Proof.
  apply (@format_change_total demo.platform demo.trusted ∅ "/srv/a.txt" demo.fim_config
           demo.disk [] []
           [monitor.mkChange "modified" "/srv/a.txt"
              {[ "before" := "00"; "after" := "c3" ]}]).
  - right. vm_compute. reflexivity.
  - apply list_elem_of_here.
Defined.

(** C5 on the disk: the trusted baseline written to [/var/baseline.json]
    and read back. *)
Lemma save_load_roundtrip_witness :
  ∃ disk',
    baseline.save_baseline demo.trusted "/var/baseline.json" demo.disk = Ok disk'
    ∧ baseline.load_baseline "/var/baseline.json" disk' = Ok demo.trusted.
Proof.
  eexists. split; [reflexivity|].
  apply (@save_load_roundtrip demo.platform demo.trusted "/var/baseline.json" demo.disk).
  - apply insert_non_empty.
  - reflexivity.
Defined.

(** C8 on the burst: the event 125 ms after the classified one is
    dropped; the next one is tested against the classified one, 312.5 ms
    before it, not against the dropped one, and is classified. *)
Lemma debounce_rejects_after_classified_witness :
  cli.classifier_calls demo.fim_config cli.Handler_init demo.burst !! 1%nat
    = Some None
  ∧ cli.classifier_calls demo.fim_config cli.Handler_init demo.burst !! 2%nat
    = Some (Some "/srv/a.txt").
Proof.
  assert (cli.classifier_calls demo.fim_config cli.Handler_init demo.burst
            !! 0%nat = Some (Some "/srv/a.txt")) as Hfirst
    by (vm_compute; reflexivity).
  split.
  - refine (eq_trans
              (@debounce_rejects_after_classified demo.platform
                 demo.fim_config demo.burst 0 1
                 (demo.file_event "/srv/a.txt") (demo.file_event "/srv/a.txt")
                 (dyadic 1000 0) (dyadic 8001 (-3))
                 _ eq_refl eq_refl eq_refl eq_refl Hfirst _) _).
    + lia.
    + intros k Hk. lia.
    + vm_compute. reflexivity.
  - refine (eq_trans
              (@debounce_rejects_after_classified demo.platform
                 demo.fim_config demo.burst 0 2
                 (demo.file_event "/srv/a.txt") (demo.file_event "/srv/a.txt")
                 (dyadic 1000 0) (dyadic 16005 (-4))
                 _ eq_refl eq_refl eq_refl eq_refl Hfirst _) _).
    + lia.
    + intros k Hk. assert (k = 1%nat) as -> by lia. vm_compute. discriminate.
    + vm_compute. reflexivity.
Defined.

(** C4 on the document that names [rot13]: it is loaded, and hashing any
    file with the loaded configuration raises. *)
Lemma unsupported_algorithm_fails_per_file_witness :
  config.load_config demo.disk "/etc/fim-rot13.json" = Ok demo.fim_rot13_config
  ∧ utils.compute_file_hash demo.disk "/srv/a.txt"
      (config.hash_algorithm demo.fim_rot13_config)
    = Raise (ValueError "unsupported hash type rot13")
  ∧ monitor.build_event_change demo.trusted "/srv/a.txt" demo.fim_rot13_config
      demo.disk []
    = (Raise (ValueError "unsupported hash type rot13"), []).
Proof.
  assert (config.load_config demo.disk "/etc/fim-rot13.json"
          = Ok demo.fim_rot13_config) as Hload by (vm_compute; reflexivity).
  split; [exact Hload|].
  destruct (@unsupported_algorithm_fails_per_file demo.platform demo.disk "/etc/fim-rot13.json"
              demo.fim_rot13_json _ demo.fim_rot13_config eq_refl eq_refl Hload)
    as [_ Hraise].
  destruct (Hraise "unsupported hash type rot13" eq_refl demo.disk "/srv/a.txt")
    as [Hhash Hevent].
  split; [exact Hhash|]. apply Hevent. reflexivity.
Defined.

End witnesses.

(** C4 as stated fails: [load_config] returns a configuration for the
    document that names the unsupported algorithm [rot13]. *)
Lemma algorithm_not_checked_by_load_config :
  ¬ algorithm_checked_by_load_config demo.platform.
Proof.
  intros Hchecked.
  destruct (Hchecked demo.disk "/etc/fim-rot13.json" demo.fim_rot13_config)
    as [Hsupported _]; [vm_compute; reflexivity|].
  apply Hsupported. exists "unsupported hash type rot13". reflexivity.
Qed.

Ltac solve_clock_monotone :=
  unfold clock_monotone; simpl;
  repeat match goal with
         | |- StronglySorted _ _ => constructor
         | |- Forall _ _ => constructor
         | |- float_le _ _ =>
             eexists _, _; split_and!; [reflexivity|reflexivity|by vm_compute]
         end.

Lemma demo_burst_monotone : clock_monotone demo.burst.
Proof. solve_clock_monotone. Defined.

Lemma demo_close_pair_monotone : clock_monotone demo.close_pair.
Proof. solve_clock_monotone. Defined.

(** C8 as stated fails: in the burst the third event comes 187.5 ms after
    the second, which was dropped, and 312.5 ms after the first, which was
    classified; the third is classified. *)
Lemma debounce_accepts_second :
  ¬ debounce_rejects_second demo.platform.
Proof.
  intros Hrejects.
  specialize (Hrejects demo.fim_config demo.burst 1%nat 2%nat
                (demo.file_event "/srv/a.txt") (demo.file_event "/srv/a.txt")
                (dyadic 8001 (-3)) (dyadic 16005 (-4))).
  assert (@cli.classifier_calls demo.platform demo.fim_config
            cli.Handler_init demo.burst !! 2%nat = Some (Some "/srv/a.txt"))
    as Hthird by (vm_compute; reflexivity).
  rewrite Hrejects in Hthird; [discriminate|..]; try reflexivity.
  - apply demo_burst_monotone.
  - lia.
Qed.

(** Nor is the window an exact one: the second event of
    [demo.close_pair] comes less than 300 ms after the first, which was
    classified, and is classified with a window of 300 ms, because the
    product that [_debounced] compares with the window is rounded. *)
Lemma rounded_window_accepts_second :
  ¬ debounce_rejects_within_exact_window demo.platform.
Proof.
  intros Hrejects.
  specialize (Hrejects demo.fim_300_config demo.close_pair 0%nat 1%nat
                (demo.file_event "/srv/a.txt") (demo.file_event "/srv/a.txt")
                (dyadic 5404319552844597 (-54))
                (dyadic 5404319552844596 (-53))).
  assert (@cli.classifier_calls demo.platform demo.fim_300_config
            cli.Handler_init demo.close_pair !! 1%nat
          = Some (Some "/srv/a.txt"))
    as Hsecond by (vm_compute; reflexivity).
  rewrite Hrejects in Hsecond; [discriminate|..]; try reflexivity.
  - apply demo_close_pair_monotone.
  - lia.
Qed.

(** * Further properties of the package *)

(** ** The diff engine, continued *)

Section diff_engine_more.
Implicit Types B C : gmap string baseline.BaselineRecord.

Lemma elem_of_changes_for (c : monitor.Change) (changes : list monitor.Change) :
  c ∈ changes ↔ c ∈ changes_for (monitor.path c) changes.
Proof. unfold changes_for. rewrite list_elem_of_filter. naive_solver. Qed.

Lemma hash_singleton_inj (h h' : string) :
  ({[ "hash" := h ]} : gmap string string) = {[ "hash" := h' ]} → h = h'.
Proof.
  intros Heq. apply (f_equal (.!! "hash")) in Heq.
  rewrite !lookup_singleton_eq in Heq. congruence.
Qed.

Lemma before_after_inj (a b a' b' : string) :
  ({[ "before" := a; "after" := b ]} : gmap string string)
    = {[ "before" := a'; "after" := b' ]} → a = a' ∧ b = b'.
Proof.
  intros Heq. split.
  - apply (f_equal (.!! "before")) in Heq.
    rewrite !lookup_insert_eq in Heq. congruence.
  - apply (f_equal (.!! "after")) in Heq.
    rewrite !lookup_insert_ne, !lookup_singleton_eq in Heq by done. congruence.
Qed.

Ltac solve_change_eq :=
  try match goal with
      | Hin : monitor.mkChange _ _ _ = monitor.mkChange _ _ _ |- _ =>
          apply (f_equal monitor.details) in Hin; simpl in Hin;
          first [ apply hash_singleton_inj in Hin
                | apply before_after_inj in Hin as [? ?] ];
          subst
      end;
  repeat match goal with
         | H : Some _ = Some _ |- _ => injection H as H; subst
         end;
  try done.

(** Membership of each kind of Change in the result. *)
Lemma created_in_compare B C changes p h :
  monitor.compare_baseline B C = Ok changes →
  monitor.mkChange "created" p {[ "hash" := h ]} ∈ changes
  ↔ B !! p = None ∧ baseline.hash <$> C !! p = Some h.
Proof.
  intros Hcmp. rewrite elem_of_changes_for. simpl.
  rewrite (changes_for_compare B C p changes Hcmp).
  unfold created_of, deleted_of, modified_of.
  destruct (B !! p) as [rb|], (C !! p) as [rc|]; simpl;
    try case_decide; simpl; rewrite ?list_elem_of_singleton, ?elem_of_nil;
    (split; [intros Hin|intros Hfacts]); destruct_and?;
    try done; try discriminate; solve_change_eq.
Qed.

Lemma deleted_in_compare B C changes p h :
  monitor.compare_baseline B C = Ok changes →
  monitor.mkChange "deleted" p {[ "hash" := h ]} ∈ changes
  ↔ baseline.hash <$> B !! p = Some h ∧ C !! p = None.
Proof.
  intros Hcmp. rewrite elem_of_changes_for. simpl.
  rewrite (changes_for_compare B C p changes Hcmp).
  unfold created_of, deleted_of, modified_of.
  destruct (B !! p) as [rb|], (C !! p) as [rc|]; simpl;
    try case_decide; simpl; rewrite ?list_elem_of_singleton, ?elem_of_nil;
    (split; [intros Hin|intros Hfacts]); destruct_and?;
    try done; try discriminate; solve_change_eq.
Qed.

Lemma modified_in_compare B C changes p h1 h2 :
  monitor.compare_baseline B C = Ok changes →
  monitor.mkChange "modified" p {[ "before" := h1; "after" := h2 ]} ∈ changes
  ↔ baseline.hash <$> B !! p = Some h1 ∧ baseline.hash <$> C !! p = Some h2
    ∧ h1 ≠ h2.
Proof.
  intros Hcmp. rewrite elem_of_changes_for. simpl.
  rewrite (changes_for_compare B C p changes Hcmp).
  unfold created_of, deleted_of, modified_of.
  destruct (B !! p) as [rb|], (C !! p) as [rc|]; simpl;
    try case_decide; simpl; rewrite ?list_elem_of_singleton, ?elem_of_nil;
    (split; [intros Hin|intros Hfacts]); destruct_and?;
    try done; try discriminate; solve_change_eq.
Qed.

End diff_engine_more.

(** X1.  [compare_baseline(B, C)] is the empty list exactly when [B] and
    [C] have the same keys and, under each key, records with the same
    hash. *)
Theorem compare_baseline_empty_iff (B C : gmap string baseline.BaselineRecord) :
  monitor.compare_baseline B C = Ok []
  ↔ baseline.hash <$> B = baseline.hash <$> C.
Proof.
  split.
  - intros Hcmp. apply map_eq. intros p. rewrite !lookup_fmap.
    pose proof (changes_for_compare B C p [] Hcmp) as Hp.
    unfold changes_for, created_of, deleted_of, modified_of in Hp.
    rewrite filter_nil in Hp.
    destruct (B !! p) as [rb|], (C !! p) as [rc|]; simpl in *; try done.
    case_decide as Hne; [done|]. f_equal. by destruct (decide (baseline.hash rb = baseline.hash rc)).
  - intros Hsame. rewrite compare_baseline_eq.
    assert (dom B = dom C) as Hdom.
    { rewrite <- (dom_fmap_L baseline.hash B), Hsame. apply dom_fmap_L. }
    rewrite Hdom, difference_diag_L. unfold sorted at 1 2.
    rewrite elements_empty. simpl. f_equal.
    induction (sorted (dom C ∩ dom C)) as [|p l IH]; simpl; [done|].
    assert (modified_of B C p = None) as ->; [|done].
    apply (f_equal (.!! p)) in Hsame. rewrite !lookup_fmap in Hsame.
    unfold modified_of. destruct (B !! p), (C !! p); simpl in *; try done.
    rewrite decide_False; [done|]. intros Hne. apply Hne. congruence.
Qed.

(** X2.  Swapping the two mappings swaps [created] with [deleted] (same
    path, same hash) and turns every [modified] Change around (same path,
    [before] and [after] exchanged). *)
Theorem compare_baseline_swap (B C : gmap string baseline.BaselineRecord) :
  ∃ changes changes',
    monitor.compare_baseline B C = Ok changes
    ∧ monitor.compare_baseline C B = Ok changes'
    ∧ (∀ p h, monitor.mkChange "created" p {[ "hash" := h ]} ∈ changes
              ↔ monitor.mkChange "deleted" p {[ "hash" := h ]} ∈ changes')
    ∧ (∀ p h, monitor.mkChange "deleted" p {[ "hash" := h ]} ∈ changes
              ↔ monitor.mkChange "created" p {[ "hash" := h ]} ∈ changes')
    ∧ (∀ p h1 h2,
         monitor.mkChange "modified" p {[ "before" := h1; "after" := h2 ]}
           ∈ changes
         ↔ monitor.mkChange "modified" p {[ "before" := h2; "after" := h1 ]}
           ∈ changes').
Proof.
  do 2 eexists. split; [apply compare_baseline_eq|].
  split; [apply compare_baseline_eq|].
  pose proof (compare_baseline_eq B C) as HBC.
  pose proof (compare_baseline_eq C B) as HCB.
  split_and!.
  - intros p h. rewrite (created_in_compare _ _ _ _ _ HBC),
      (deleted_in_compare _ _ _ _ _ HCB). naive_solver.
  - intros p h. rewrite (deleted_in_compare _ _ _ _ _ HBC),
      (created_in_compare _ _ _ _ _ HCB). naive_solver.
  - intros p h1 h2. rewrite (modified_in_compare _ _ _ _ _ _ HBC),
      (modified_in_compare _ _ _ _ _ _ HCB). naive_solver.
Qed.

(** X3.  The incremental classifier agrees with the diff engine: when
    the current mapping [C] describes path [p] as the disk has it (absent
    from both, or present with the hash the file has now),
    [build_event_change(B, p)] returns the Changes of
    [compare_baseline(B, C)] that are about [p], and logs nothing. *)
Theorem build_event_change_agrees_with_compare `{!Platform}
    (B C : gmap string baseline.BaselineRecord) (p : Path)
    (cfg : config.Config) (fs : filesystem) (log : Logger)
    (changes : list monitor.Change) :
  monitor.compare_baseline B C = Ok changes →
  (Path_exists fs p = false ∧ C !! p = None)
  ∨ (Path_exists fs p = true
     ∧ ∃ r, C !! p = Some r
            ∧ utils.compute_file_hash fs p (config.hash_algorithm cfg)
                = Ok (baseline.hash r)) →
  monitor.build_event_change B p cfg fs log = (Ok (changes_for p changes), log).
Proof.
  intros Hcmp Hdisk. rewrite build_event_change_eq.
  rewrite (changes_for_compare B C p changes Hcmp).
  unfold created_of, deleted_of, modified_of.
  destruct Hdisk as [[-> ->]|(-> & r & -> & ->)].
  - by destruct (B !! p).
  - destruct (B !! p) as [rb|]; simpl; [|done].
    by destruct (decide (baseline.hash rb = baseline.hash r)),
                (decide (baseline.hash rb ≠ baseline.hash r)).
Qed.

(** X4.  [build_event_change] reads [hash_algorithm] and nothing else of
    the configuration: [exclude_globs], [paths] and [follow_symlinks] do
    not apply to events. *)
Theorem build_event_change_reads_algorithm_only `{!Platform}
    (B : gmap string baseline.BaselineRecord) (p : Path)
    (cfg cfg' : config.Config) (fs : filesystem) (log : Logger) :
  config.hash_algorithm cfg = config.hash_algorithm cfg' →
  monitor.build_event_change B p cfg fs log
    = monitor.build_event_change B p cfg' fs log.
Proof. intros Halg. by rewrite !build_event_change_eq, Halg. Qed.

(** ** Computations that log *)

Section py_facts.

Lemma appends_ret {A} (a : A) : appends (py_ret a).
Proof. intros log. unfold py_ret. simpl. by rewrite app_nil_r. Qed.

Lemma appends_lift {A} (r : result A) : appends (lift r).
Proof. intros log. unfold lift. simpl. by rewrite app_nil_r. Qed.

Lemma appends_warning msg : appends (logger_warning msg).
Proof. by intros log. Qed.

Lemma appends_info msg : appends (logger_info msg).
Proof. by intros log. Qed.

Lemma appends_bind {A B} (m : Py A) (f : A → Py B) :
  appends m → (∀ a, appends (f a)) → appends (py_bind m f).
Proof.
  intros Hm Hf log. unfold py_bind. rewrite (Hm log).
  destruct (m []) as [[a|e] out]; simpl; [|done].
  rewrite (Hf a (log ++ out)), (Hf a out). simpl. by rewrite app_assoc.
Qed.

Lemma appends_try {A} (body : Py A) (handler : string → Py A) :
  appends body → (∀ msg, appends (handler msg)) →
  appends (try_except_OSError body handler).
Proof.
  intros Hb Hh log. unfold try_except_OSError. rewrite (Hb log).
  destruct (body []) as [[a|e] out]; simpl; [done|].
  destruct e; try done.
  rewrite (Hh msg (log ++ out)), (Hh msg out). simpl. by rewrite app_assoc.
Qed.

Lemma appends_for_each {S A} (xs : list A) (body : A → S → Py S) :
  (∀ x s, appends (body x s)) → ∀ s, appends (for_each xs body s).
Proof.
  intros Hbody. induction xs as [|x xs IH]; intros s; simpl.
  - apply appends_ret.
  - apply appends_bind; [apply Hbody|apply IH].
Qed.

End py_facts.

(** ** Scanning *)

Section scanning.
Context `{!Platform}.
Implicit Types cfg : config.Config.
Implicit Types data current : gmap string baseline.BaselineRecord.

Lemma snapshot_unfold cfg fs :
  monitor.snapshot cfg fs =
    for_each (config.paths cfg)
      (λ root data,
         for_each (utils.iter_files fs root (config.follow_symlinks cfg))
           (scan_file cfg fs root) data) ∅.
Proof. reflexivity. Qed.

(** What one candidate file does, by the answers of the platform. *)
Lemma scan_file_eq cfg fs root path data log :
  scan_file cfg fs root path data log =
    match utils.should_exclude path root (config.exclude_globs cfg) with
    | Raise e => (Raise e, log)
    | Ok true => (Ok data, log)
    | Ok false =>
        match utils.compute_file_hash fs path (config.hash_algorithm cfg) with
        | Ok h =>
            match Path_stat fs path with
            | Ok st =>
                (Ok (<[path := baseline.mkBaselineRecord path h
                                  (st_size st) (st_mtime st)]> data), log)
            | Raise (OSError msg) =>
                (Ok data,
                 log ++ [LogWarning ("Skipping " +:+ path +:+ ": " +:+ msg)])
            | Raise e => (Raise e, log)
            end
        | Raise (OSError msg) =>
            (Ok data,
             log ++ [LogWarning ("Skipping " +:+ path +:+ ": " +:+ msg)])
        | Raise e => (Raise e, log)
        end
    end.
Proof.
  unfold scan_file, py_bind, lift, try_except_OSError, py_ret, logger_warning.
  destruct (utils.should_exclude _ _ _) as [[]|]; try done.
  destruct (utils.compute_file_hash _ _ _) as [h|[]]; try done.
  by destruct (Path_stat fs path) as [st|[]].
Qed.

Lemma scan_file_appends cfg fs root path data :
  appends (scan_file cfg fs root path data).
Proof.
  unfold scan_file. apply appends_bind; [apply appends_lift|].
  intros []; [apply appends_ret|].
  apply appends_try.
  - apply appends_bind; [apply appends_lift|]. intros h.
    apply appends_bind; [apply appends_lift|]. intros st. apply appends_ret.
  - intros msg. apply appends_bind; [apply appends_warning|].
    intros _. apply appends_ret.
Qed.

Lemma snapshot_appends cfg fs : appends (monitor.snapshot cfg fs).
Proof.
  rewrite snapshot_unfold. apply appends_for_each. intros root data.
  apply appends_for_each. intros path data'. apply scan_file_appends.
Qed.

(** The records that [scan_file] writes are warnings about a skipped
    file. *)
Lemma scan_file_log cfg fs root path data log outcome log' :
  scan_file cfg fs root path data log = (outcome, log') →
  ∃ warnings, log' = log ++ warnings ∧ Forall skip_warning warnings.
Proof.
  rewrite scan_file_eq. intros Heq.
  assert (log' = log ∨ ∃ msg,
            log' = log ++ [LogWarning ("Skipping " +:+ path +:+ ": " +:+ msg)])
    as [->|[msg ->]].
  { destruct (utils.should_exclude _ _ _) as [[]|]; simplify_eq; eauto.
    destruct (utils.compute_file_hash _ _ _) as [h|[]]; simplify_eq; eauto.
    destruct (Path_stat fs path) as [st|[]]; simplify_eq; eauto. }
  - exists []. by rewrite app_nil_r.
  - eexists. split; [done|]. repeat constructor. by exists path, msg.
Qed.

Lemma for_each_log {S A} (xs : list A) (body : A → S → Py S) :
  (∀ x s log outcome log',
     body x s log = (outcome, log') →
     ∃ warnings, log' = log ++ warnings ∧ Forall skip_warning warnings) →
  ∀ s log outcome log',
    for_each xs body s log = (outcome, log') →
    ∃ warnings, log' = log ++ warnings ∧ Forall skip_warning warnings.
Proof.
  intros Hbody. induction xs as [|x xs IH]; intros s log outcome log'; simpl.
  - unfold py_ret. intros [= <- <-]. exists []. by rewrite app_nil_r.
  - unfold py_bind at 1. destruct (body x s log) as [[s1|e] log1] eqn:Hx.
    + destruct (Hbody _ _ _ _ _ Hx) as (w1 & -> & Hw1). intros Hrest.
      destruct (IH _ _ _ _ Hrest) as (w2 & -> & Hw2).
      exists (w1 ++ w2). split; [by rewrite app_assoc|by apply Forall_app].
    + intros [= <- <-]. by apply (Hbody _ _ _ _ _ Hx).
Qed.

Lemma accounted_mono cfg fs p data log data' warnings :
  dom data ⊆ dom data' →
  accounted cfg fs p data log → accounted cfg fs p data' (log ++ warnings).
Proof.
  intros Hdom [Hin|(msg & Hlog & Hwhy)]; [left; by apply Hdom|].
  right. exists msg. split; [|done]. apply elem_of_app. by left.
Qed.

Lemma scan_file_step cfg fs root path data log data' log' :
  root ∈ config.paths cfg →
  path ∈ utils.iter_files fs root (config.follow_symlinks cfg) →
  scan_file cfg fs root path data log = (Ok data', log') →
  (recorded cfg fs data → recorded cfg fs data')
  ∧ dom data ⊆ dom data'
  ∧ (∃ warnings, log' = log ++ warnings)
  ∧ (utils.should_exclude path root (config.exclude_globs cfg) = Ok false →
     accounted cfg fs path data' log').
Proof.
  intros Hroot Hpath. rewrite scan_file_eq.
  destruct (utils.should_exclude _ _ _) as [[]|] eqn:Hex; try done.
  { intros [= <- <-]. split_and!; try done. exists []. by rewrite app_nil_r. }
  destruct (utils.compute_file_hash _ _ _) as [h|[]] eqn:Hh; try done.
  - destruct (Path_stat fs path) as [[sz mt]|[]] eqn:Hst; try done.
    + intros [= <- <-]. split_and!.
      * intros Hrec p r. destruct (decide (p = path)) as [->|Hne].
        -- rewrite lookup_insert_eq. intros [= <-]. simpl.
           split_and!; try done. by exists root.
        -- rewrite lookup_insert_ne by done. apply Hrec.
      * rewrite dom_insert_L. set_solver.
      * exists []. by rewrite app_nil_r.
      * intros _. left. rewrite dom_insert_L. set_solver.
    + intros [= <- <-]. split_and!; try done; [by eexists|].
      intros _. right. exists msg. split; [|by right].
      apply elem_of_app. right. apply list_elem_of_here.
  - intros [= <- <-]. split_and!; try done; [by eexists|].
    intros _. right. exists msg. split; [|by left].
    apply elem_of_app. right. apply list_elem_of_here.
Qed.

(** The scan of the files of one root. *)
Lemma scan_root_invariant cfg fs root files : ∀ data log data' log',
  root ∈ config.paths cfg →
  files ⊆ utils.iter_files fs root (config.follow_symlinks cfg) →
  for_each files (scan_file cfg fs root) data log = (Ok data', log') →
  (recorded cfg fs data → recorded cfg fs data')
  ∧ dom data ⊆ dom data'
  ∧ (∃ warnings, log' = log ++ warnings)
  ∧ (∀ p, p ∈ files →
       utils.should_exclude p root (config.exclude_globs cfg) = Ok false →
       accounted cfg fs p data' log').
Proof.
  induction files as [|path files IH]; intros data log data' log' Hroot Hsub;
    simpl.
  - unfold py_ret. intros [= <- <-]. split_and!; try done.
    + exists []. by rewrite app_nil_r.
    + by intros p ?%elem_of_nil.
  - unfold py_bind at 1.
    destruct (scan_file cfg fs root path data log) as [[data1|e] log1] eqn:Hx;
      [|done].
    intros Hrest.
    destruct (scan_file_step _ _ _ _ _ _ _ _ Hroot
                (Hsub path ltac:(left)) Hx) as (Hrec1 & Hdom1 & [w1 ->] & Hacc1).
    destruct (IH _ _ _ _ Hroot ltac:(set_solver) Hrest)
      as (Hrec2 & Hdom2 & [w2 ->] & Hacc2).
    split_and!; [auto|set_solver|by exists (w1 ++ w2); rewrite app_assoc|].
    intros p [->|Hp]%elem_of_cons Hex; [|by apply Hacc2].
    eapply accounted_mono; [exact Hdom2|by apply Hacc1].
Qed.

(** The scan of the roots. *)
Lemma scan_roots_invariant cfg fs roots : ∀ data log data' log',
  roots ⊆ config.paths cfg →
  for_each roots
    (λ root data,
       for_each (utils.iter_files fs root (config.follow_symlinks cfg))
         (scan_file cfg fs root) data) data log = (Ok data', log') →
  (recorded cfg fs data → recorded cfg fs data')
  ∧ dom data ⊆ dom data'
  ∧ (∃ warnings, log' = log ++ warnings)
  ∧ (∀ root p, root ∈ roots →
       p ∈ utils.iter_files fs root (config.follow_symlinks cfg) →
       utils.should_exclude p root (config.exclude_globs cfg) = Ok false →
       accounted cfg fs p data' log').
Proof.
  induction roots as [|root roots IH]; intros data log data' log' Hsub; simpl.
  - unfold py_ret. intros [= <- <-]. split_and!; try done.
    + exists []. by rewrite app_nil_r.
    + by intros root p ?%elem_of_nil.
  - unfold py_bind at 1.
    destruct (for_each (utils.iter_files fs root _) _ data log)
      as [[data1|e] log1] eqn:Hx; [|done].
    intros Hrest.
    destruct (scan_root_invariant _ _ _ _ _ _ _ _
                (Hsub root ltac:(left)) ltac:(done) Hx)
      as (Hrec1 & Hdom1 & [w1 ->] & Hacc1).
    destruct (IH _ _ _ _ ltac:(set_solver) Hrest)
      as (Hrec2 & Hdom2 & [w2 ->] & Hacc2).
    split_and!; [auto|set_solver|by exists (w1 ++ w2); rewrite app_assoc|].
    intros root' p [->|Hr]%elem_of_cons Hp Hex; [|by eapply Hacc2].
    eapply accounted_mono; [exact Hdom2|by apply Hacc1].
Qed.

Lemma snapshot_log cfg fs log outcome log' :
  monitor.snapshot cfg fs log = (outcome, log') →
  ∃ warnings, log' = log ++ warnings ∧ Forall skip_warning warnings.
Proof.
  rewrite snapshot_unfold. apply for_each_log.
  intros root data. apply for_each_log.
  intros path data'. apply scan_file_log.
Qed.

End scanning.

(** X5.  In a baseline that [build_baseline] returns, every record is
    stored under its own path and holds the digest [compute_file_hash]
    gives for that path and the size and modification time [stat] gives. *)
Theorem build_baseline_records `{!Platform}
    (cfg : config.Config) (fs : filesystem) (log log' : Logger)
    (built : gmap string baseline.BaselineRecord) :
  baseline.build_baseline cfg fs log = (Ok built, log') →
  ∀ p r, built !! p = Some r →
    baseline.path r = p
    ∧ utils.compute_file_hash fs p (config.hash_algorithm cfg)
        = Ok (baseline.hash r)
    ∧ Path_stat fs p = Ok (mkStat (baseline.size r) (baseline.mtime r)).
Proof.
  intros Hbuild p r Hr.
  destruct (scan_roots_invariant cfg fs _ _ _ _ _ ltac:(done) Hbuild)
    as (Hrec & _).
  destruct (Hrec ltac:(by intros ? ? ?) p r Hr) as (? & ? & ? & _). done.
Qed.

(** X6.  Every key of a snapshot is a file that [iter_files] yields under
    a configured root and that [should_exclude] does not exclude. *)
Theorem snapshot_keys_are_candidates `{!Platform}
    (cfg : config.Config) (fs : filesystem) (log log' : Logger)
    (current : gmap string baseline.BaselineRecord) :
  monitor.snapshot cfg fs log = (Ok current, log') →
  ∀ p, p ∈ dom current → ∃ root, candidate cfg fs root p.
Proof.
  intros Hsnap p [r Hr]%elem_of_dom.
  destruct (scan_roots_invariant cfg fs _ _ _ _ _ ltac:(done) Hsnap)
    as (Hrec & _).
  by destruct (Hrec ltac:(by intros ? ? ?) p r Hr) as (_ & _ & _ & ?).
Qed.

(** X7.  A snapshot that returns accounts for every candidate file: the
    file is a key of the mapping, or the log has a warning for it with the
    message of the [OSError] that hashing or [stat] raised.  No candidate
    is dropped silently. *)
Theorem snapshot_accounts_for_candidates `{!Platform}
    (cfg : config.Config) (fs : filesystem) (log log' : Logger)
    (current : gmap string baseline.BaselineRecord) :
  monitor.snapshot cfg fs log = (Ok current, log') →
  ∀ root p, candidate cfg fs root p →
    p ∈ dom current
    ∨ ∃ msg,
        LogWarning ("Skipping " +:+ p +:+ ": " +:+ msg) ∈ log'
        ∧ (utils.compute_file_hash fs p (config.hash_algorithm cfg)
             = Raise (OSError msg)
           ∨ Path_stat fs p = Raise (OSError msg)).
Proof.
  intros Hsnap root p (Hroot & Hp & Hex).
  destruct (scan_roots_invariant cfg fs _ _ _ _ _ ltac:(done) Hsnap)
    as (_ & _ & _ & Hacc).
  exact (Hacc root p Hroot Hp Hex).
Qed.

(** X8.  Whatever its outcome, a snapshot only adds to the log, and what
    it adds are warnings about skipped files. *)
Theorem snapshot_logs_only_skip_warnings `{!Platform}
    (cfg : config.Config) (fs : filesystem) (log log' : Logger)
    (outcome : result (gmap string baseline.BaselineRecord)) :
  monitor.snapshot cfg fs log = (outcome, log') →
  ∃ warnings, log' = log ++ warnings ∧ Forall skip_warning warnings.
Proof. apply snapshot_log. Qed.

(** ** Enumerating, excluding and hashing files *)

Section utils_facts.
Context `{!Platform}.

Lemma foldl_update_concat (h : hasher) (chunks : list bytes) :
  update_concatenates →
  foldl hasher_update h chunks = hasher_update h (concat chunks).
Proof.
  intros [Hnil Happ]. revert h.
  induction chunks as [|chunk chunks IH]; intros h; simpl.
  - by rewrite Hnil.
  - by rewrite IH, Happ.
Qed.

End utils_facts.

(** X9.  Under a root that is not a file, [follow_symlinks] only adds:
    the files [iter_files] yields without it are those it yields with it
    that are not symbolic links, and every file yielded is a regular file
    found by [rglob].  A root that is itself a file is yielded as it is,
    symbolic link or not. *)
Theorem iter_files_symlink_policy `{!Platform}
    (fs : filesystem) (root : Path) :
  (Path_is_file fs root = true →
     ∀ follow, utils.iter_files fs root follow = [root])
  ∧ (Path_is_file fs root = false →
     (∀ p, p ∈ utils.iter_files fs root false
           ↔ p ∈ utils.iter_files fs root true ∧ Path_is_symlink fs p = false)
     ∧ ∀ follow p, p ∈ utils.iter_files fs root follow →
         p ∈ Path_rglob fs root "*" ∧ Path_is_file fs p = true).
Proof.
  unfold utils.iter_files. split; intros ->; [done|].
  split.
  - intros p. rewrite !list_elem_of_In, !filter_In.
    destruct (Path_is_file fs p), (Path_is_symlink fs p); simpl; naive_solver.
  - intros follow p. rewrite !list_elem_of_In, !filter_In.
    destruct (Path_is_file fs p); simpl; naive_solver.
Qed.

(** X10.  When [should_exclude] returns, the path is relative to the
    root, and the answer is [True] exactly when some pattern of
    [exclude_globs] matches the path or the path relative to the root. *)
Theorem should_exclude_some_pattern `{!Platform}
    (path root : Path) (exclude_globs : list json) (answer : bool) :
  utils.should_exclude path root exclude_globs = Ok answer →
  ∃ relative,
    Path_relative_to path root = Ok relative
    ∧ (answer = true
       ↔ ∃ pattern, pattern ∈ exclude_globs
           ∧ (Path_match path pattern = Ok true
              ∨ Path_match relative pattern = Ok true)).
Proof.
  unfold utils.should_exclude.
  destruct (Path_relative_to path root) as [relative|]; simpl; [|done].
  intros Hloop. exists relative. split; [done|].
  revert Hloop. induction exclude_globs as [|pattern rest IH]; simpl.
  - intros [= <-]. split; [done|]. by intros (? & ?%elem_of_nil & _).
  - destruct (Path_match path pattern) as [[]|] eqn:Hfull; simpl; [| |done].
    { intros [= <-]. split; [|done]. intros _. exists pattern.
      split; [left|by left]. }
    destruct (Path_match relative pattern) as [[]|] eqn:Hrel; simpl; [| |done].
    { intros [= <-]. split; [|done]. intros _. exists pattern.
      split; [left|by right]. }
    intros Hrest. rewrite (IH Hrest). split.
    + intros (q & Hq & Hm). exists q. split; [by right|done].
    + intros (q & [->|Hq]%elem_of_cons & Hm); [|by exists q].
      destruct Hm; congruence.
Qed.

(** X11.  When [update] of the hasher concatenates, as hashlib's does,
    the digest of a file is the digest of its bytes: it does not depend on
    how the reads cut the file into chunks. *)
Theorem compute_file_hash_of_bytes `{!Platform}
    (fs : filesystem) (path : Path) (algorithm digest : string) :
  update_concatenates →
  utils.compute_file_hash fs path algorithm = Ok digest →
  ∃ h chunks,
    hashlib_new algorithm = Ok h
    ∧ Path_open_rb_chunks fs path (1024 * 1024) = Ok chunks
    ∧ digest = hasher_hexdigest (hasher_update h (concat chunks)).
Proof.
  intros Hupdate. unfold utils.compute_file_hash.
  destruct (hashlib_new algorithm) as [h|]; simpl; [|done].
  destruct (Path_open_rb_chunks fs path _) as [chunks|]; simpl; [|done].
  intros [= <-]. exists h, chunks. by rewrite foldl_update_concat.
Qed.

(** ** Configuration loading, continued *)

Section load_config_facts.
Context `{!Platform}.

(** The comprehension of [load_config] on a list of strings. *)
Lemma comprehension_Path_of_json fs (ps : list string) :
  comprehension
    (λ p, q ← config.Path_of_json p; q' ← Path_expanduser q; Path_resolve fs q')
    (JStr <$> ps)
  = comprehension
      (λ s, Path_expanduser (Path_of_str s) ≫= Path_resolve fs) ps.
Proof.
  induction ps as [|s ps IH]; [done|].
  rewrite fmap_cons. cbn [comprehension]. by rewrite IH.
Qed.

End load_config_facts.

(** X12.  A configuration document without a [paths] entry, or with an
    empty list there, is refused: [load_config] raises [ValueError] with
    the message that at least one path is needed. *)
Theorem load_config_needs_a_path `{!Platform}
    (fs : filesystem) (config_path : Path) (contents : text)
    (d : gmap string json) :
  Path_read_text fs config_path = Ok contents →
  json_loads contents = Ok (JDict d) →
  d !! "paths" = None ∨ d !! "paths" = Some (JList []) →
  config.load_config fs config_path
    = Raise (ValueError "Config must include at least one path.").
Proof.
  intros Hread Hloads Hpaths. unfold config.load_config.
  rewrite Hread. simpl. rewrite Hloads. simpl.
  assert (from_option id (JList []) (d !! "paths") = JList []) as ->
    by (by destruct Hpaths as [-> | ->]).
  simpl. by rewrite py_iter_JList.
Qed.

(** X13.  A configuration that [load_config] returns has at least one
    path. *)
Theorem load_config_paths_nonempty `{!Platform}
    (fs : filesystem) (config_path : Path) (cfg : config.Config) :
  config.load_config fs config_path = Ok cfg →
  config.paths cfg ≠ [].
Proof.
  unfold config.load_config.
  destruct (Path_read_text fs config_path) as [contents|]; simpl; [|done].
  destruct (json_loads contents) as [data|]; simpl; [|done].
  destruct (dict_get data "paths" _) as [paths_value|]; simpl; [|done].
  destruct (py_iter paths_value) as [items|]; simpl; [|done].
  destruct (comprehension _ items) as [paths|]; simpl; [|done].
  destruct (bool_decide (paths = [])) eqn:Hempty; [done|].
  apply bool_decide_eq_false in Hempty.
  repeat match goal with
         | |- context [mbind _ ?m] =>
             lazymatch m with
             | Ok _ => fail
             | _ => destruct m; simpl; [|done]
             end
         | |- context [fmap _ ?m] => destruct m; simpl; [|done]
         end.
  by intros [= <-].
Qed.

(** X14.  A document that only lists paths gets the defaults when its
    paths and the two default file names expand and resolve: no
    exclusions, symbolic links not followed, [sha256], [./baseline.json],
    [./logs/fim.log], a scan every 60 seconds and a debounce window of
    250 ms; each path is expanded and resolved, in the order of the
    document. *)
Theorem load_config_defaults `{!Platform}
    (fs : filesystem) (config_path : Path) (contents : text)
    (ps : list string) (resolved : list Path) (baseline_file log_file : Path) :
  Path_read_text fs config_path = Ok contents →
  json_loads contents = Ok (JDict {[ "paths" := JList (JStr <$> ps) ]}) →
  ps ≠ [] →
  comprehension (λ s, Path_expanduser (Path_of_str s) ≫= Path_resolve fs) ps
    = Ok resolved →
  Path_expanduser (Path_of_str "./baseline.json") = Ok baseline_file →
  Path_expanduser (Path_of_str "./logs/fim.log") = Ok log_file →
  config.load_config fs config_path =
    Ok (config.mkConfig resolved [] false "sha256" baseline_file log_file
          60 250).
Proof.
  intros Hread Hloads Hps Hresolved Hbaseline Hlog. unfold config.load_config.
  rewrite Hread. simpl. rewrite Hloads. simpl.
  rewrite lookup_singleton_eq. simpl. rewrite py_iter_JList. simpl.
  rewrite comprehension_Path_of_json, Hresolved. simpl.
  assert (resolved ≠ []) as Hne.
  { destruct ps as [|s ps]; [done|]. cbn [comprehension] in Hresolved.
    destruct (Path_expanduser (Path_of_str s) ≫= Path_resolve fs); [|done].
    simpl in Hresolved. destruct (comprehension _ ps); [|done].
    by injection Hresolved as <-. }
  rewrite bool_decide_eq_false_2 by done.
  rewrite !lookup_singleton_ne by done. simpl.
  rewrite Hbaseline. simpl. rewrite Hlog. simpl.
  by rewrite py_iter_JList, !py_int_JInt, py_str_JStr.
Qed.

(** ** The baseline store, continued *)

Section load_baseline_facts.
Context `{!Platform}.

(** The loop of [load_baseline] returns a mapping exactly when every
    record of the document loads, and then it holds the loaded records
    under the keys of the document. *)
Lemma load_records_spec (d : gmap string json)
    (B : gmap string baseline.BaselineRecord) :
  map_fold
    (λ path record (acc : result (gmap string baseline.BaselineRecord)),
       baseline ← acc;
       r ← baseline.load_record record;
       Ok (<[path := r]> baseline))
    (Ok ∅) d = Ok B
  ↔ ∀ p, Ok <$> B !! p = baseline.load_record <$> d !! p.
Proof.
  revert B.
  apply (map_fold_weak_ind
           (λ acc m, ∀ B, acc = Ok B
                          ↔ ∀ p, Ok <$> B !! p = baseline.load_record <$> m !! p)).
  - intros B. split.
    + intros [= <-] p. by rewrite !lookup_empty.
    + intros HB. f_equal. symmetry. apply map_eq. intros p.
      specialize (HB p). rewrite lookup_empty in *.
      by destruct (B !! p).
  - intros i x m acc Hi IH B. split.
    + destruct acc as [b|]; simpl; [|done].
      destruct (baseline.load_record x) as [r|] eqn:Hx; simpl; [|done].
      intros [= <-] p. destruct (decide (i = p)) as [->|Hne].
      * rewrite !lookup_insert_eq. simpl. by rewrite Hx.
      * rewrite !lookup_insert_ne by done. by apply IH.
    + intros HB. pose proof (HB i) as HBi.
      rewrite lookup_insert_eq in HBi.
      destruct (B !! i) as [r|] eqn:Hr; simpl in HBi; [|done].
      injection HBi as HBi. rewrite <- HBi.
      assert (acc = Ok (delete i B)) as ->.
      { apply IH. intros p. destruct (decide (i = p)) as [->|Hne].
        - by rewrite lookup_delete_eq, Hi.
        - rewrite lookup_delete_ne by done. specialize (HB p).
          by rewrite lookup_insert_ne in HB. }
      simpl. by rewrite insert_delete_id.
Qed.

Lemma load_record_of_fields (fields : gmap string json)
    (r : baseline.BaselineRecord) :
  fields !! "path" = Some (JStr (baseline.path r)) →
  fields !! "hash" = Some (JStr (baseline.hash r)) →
  fields !! "size" = Some (JInt (baseline.size r)) →
  fields !! "mtime" = Some (JFloat (baseline.mtime r)) →
  baseline.load_record (JDict fields) = Ok r.
Proof.
  intros Hp Hh Hs Hm. unfold baseline.load_record, json_getitem, getitem.
  rewrite Hp, Hh, Hs, Hm. simpl. by destruct r.
Qed.

Lemma load_record_missing_field (fields : gmap string json) (key : string) :
  key ∈ required_fields → fields !! key = None →
  ∃ e, baseline.load_record (JDict fields) = Raise e.
Proof.
  unfold required_fields, baseline.load_record, json_getitem, getitem.
  intros Hkey Hnone.
  destruct (fields !! "path") as [[]|] eqn:Hp; simpl; eauto.
  destruct (fields !! "hash") as [[]|] eqn:Hh; simpl; eauto.
  destruct (fields !! "size") as [[]|] eqn:Hs; simpl; eauto.
  destruct (fields !! "mtime") as [[]|] eqn:Hm; simpl; eauto.
  decompose_list_elem_of; congruence.
Qed.

End load_baseline_facts.

(** X15.  A baseline file is read back by key and by field.  When the
    file holds a JSON object whose keys are those of [B] and, under each
    key, an object whose [path] and [hash] are the strings, whose [size]
    is the integer and whose [mtime] is the float of the record of [B],
    [load_baseline] returns [B]: the key is taken from the file, not from
    the record's [path], and further fields of an object are ignored. *)
Theorem load_baseline_keys_and_fields `{!Platform}
    (baseline_path : Path) (fs : filesystem) (contents : text)
    (d : gmap string json) (B : gmap string baseline.BaselineRecord) :
  Path_read_text fs baseline_path = Ok contents →
  json_loads contents = Ok (JDict d) →
  dom B = dom d →
  (∀ p r, B !! p = Some r →
     ∃ fields, d !! p = Some (JDict fields)
       ∧ fields !! "path" = Some (JStr (baseline.path r))
       ∧ fields !! "hash" = Some (JStr (baseline.hash r))
       ∧ fields !! "size" = Some (JInt (baseline.size r))
       ∧ fields !! "mtime" = Some (JFloat (baseline.mtime r))) →
  baseline.load_baseline baseline_path fs = Ok B.
Proof.
  intros Hread Hloads Hdom Hfields. unfold baseline.load_baseline.
  rewrite Hread. simpl. rewrite Hloads. simpl.
  apply load_records_spec. intros p.
  destruct (B !! p) as [r|] eqn:Hr; simpl.
  - destruct (Hfields p r Hr) as (fields & -> & Hp & Hh & Hs & Hm). simpl.
    by rewrite (load_record_of_fields fields r).
  - apply not_elem_of_dom in Hr. rewrite Hdom in Hr.
    apply not_elem_of_dom in Hr. by rewrite Hr.
Qed.

(** X16.  A baseline file in which some record lacks one of the fields
    [path], [hash], [size], [mtime] is not loaded in part:
    [load_baseline] raises. *)
Theorem load_baseline_missing_field `{!Platform}
    (baseline_path : Path) (fs : filesystem) (contents : text)
    (d fields : gmap string json) (p key : string) :
  Path_read_text fs baseline_path = Ok contents →
  json_loads contents = Ok (JDict d) →
  d !! p = Some (JDict fields) →
  key ∈ required_fields →
  fields !! key = None →
  ∃ e, baseline.load_baseline baseline_path fs = Raise e.
Proof.
  intros Hread Hloads Hp Hkey Hnone. unfold baseline.load_baseline.
  rewrite Hread. simpl. rewrite Hloads. simpl.
  destruct (map_fold _ _ d) as [B|e] eqn:Hfold; [|by exists e].
  pose proof (proj1 (load_records_spec d B) Hfold p) as Hspec.
  clear Hfold. rename Hspec into Hfold.
  rewrite Hp in Hfold. simpl in Hfold.
  destruct (load_record_missing_field fields key Hkey Hnone) as [e He].
  rewrite He in Hfold. by destruct (B !! p).
Qed.

(** ** Reporting, continued *)

Section reporting_more.
Context `{!Platform}.

Lemma format_change_keys c line :
  reporting.format_change c = Ok line → keys_present c.
Proof.
  unfold keys_present, indexed_keys, reporting.format_change, getitem.
  repeat case_decide; rewrite ?Forall_cons, ?Forall_nil;
    repeat match goal with
           | |- context [monitor.details c !! ?k] =>
               destruct (monitor.details c !! k) eqn:?; simpl; [|done]
           end; eauto.
Qed.

Lemma report_changes_cons c cs log :
  reporting.report_changes (c :: cs) log =
    match reporting.format_change c with
    | Ok line => reporting.report_changes cs (log ++ [LogInfo line])
    | Raise e => (Raise e, log)
    end.
Proof.
  unfold reporting.report_changes. simpl. unfold py_bind, lift, logger_info.
  by destruct (reporting.format_change c).
Qed.

Lemma report_changes_formatted cs : ∀ lines log,
  comprehension reporting.format_change cs = Ok lines →
  reporting.report_changes cs log = (Ok tt, log ++ (LogInfo <$> lines)).
Proof.
  induction cs as [|c cs IH]; intros lines log; simpl.
  - intros [= <-]. by rewrite app_nil_r.
  - rewrite report_changes_cons.
    destruct (reporting.format_change c) as [line|]; simpl; [|done].
    destruct (comprehension _ cs) as [rest|]; simpl; [|done].
    intros [= <-]. rewrite (IH rest) by done.
    by rewrite fmap_cons, <- app_assoc.
Qed.

Lemma comprehension_format_change cs :
  Forall keys_present cs →
  ∃ lines, comprehension reporting.format_change cs = Ok lines
           ∧ length lines = length cs.
Proof.
  induction 1 as [|c cs Hc _ (lines & Hlines & Hlen)]; simpl; [by exists []|].
  destruct (format_change_ok c Hc) as [line ->]. rewrite Hlines. simpl.
  exists (line :: lines). split; [done|]. simpl. by rewrite Hlen.
Qed.

Lemma report_changes_appends cs : appends (reporting.report_changes cs).
Proof.
  unfold reporting.report_changes. apply appends_for_each. intros c [].
  apply appends_bind; [apply appends_lift|]. intros line. apply appends_info.
Qed.

End reporting_more.

(** X17.  [format_change] returns a line exactly when [details] has the
    keys it indexes for the [change_type]: [before] and [after] for
    [modified], [hash] for [created] and [deleted], [from] and [to] for
    [moved], none for any other type. *)
Theorem format_change_iff_keys `{!Platform} (c : monitor.Change) :
  (∃ line, reporting.format_change c = Ok line) ↔ keys_present c.
Proof.
  split; [intros [line Hline]; by eapply format_change_keys|].
  apply format_change_ok.
Qed.

(** X18.  [report_changes] writes one info record for each Change, in
    the order of the list, each the line [format_change] gives, and
    nothing else: for Changes with their keys it never raises. *)
Theorem report_changes_one_line_each `{!Platform}
    (changes : list monitor.Change) (log : Logger) :
  Forall keys_present changes →
  ∃ lines,
    comprehension reporting.format_change changes = Ok lines
    ∧ length lines = length changes
    ∧ reporting.report_changes changes log
      = (Ok tt, log ++ (LogInfo <$> lines)).
Proof.
  intros Hkeys.
  destruct (comprehension_format_change changes Hkeys) as (lines & Hlines & Hlen).
  exists lines. split_and!; try done. by apply report_changes_formatted.
Qed.

(** X19.  At the first Change that lacks a key, [report_changes] raises
    [KeyError]; the lines of the Changes before it are in the log, the
    Changes after it are not reported. *)
Theorem report_changes_stops_at_missing_key `{!Platform}
    (reported : list monitor.Change) (c : monitor.Change)
    (rest : list monitor.Change) (log : Logger) :
  Forall keys_present reported →
  ¬ keys_present c →
  ∃ lines key,
    comprehension reporting.format_change reported = Ok lines
    ∧ reporting.report_changes (reported ++ c :: rest) log
      = (Raise (KeyError key), log ++ (LogInfo <$> lines)).
Proof.
  intros Hkeys Hc.
  destruct (comprehension_format_change reported Hkeys) as (lines & Hlines & _).
  assert (∃ key, reporting.format_change c = Raise (KeyError key)) as [key Hkey].
  { destruct (reporting.format_change c) as [line|e] eqn:Hfmt.
    - destruct Hc. by eapply format_change_keys.
    - revert Hfmt. unfold reporting.format_change, getitem.
      repeat case_decide;
        repeat match goal with
               | |- context [monitor.details c !! ?k] =>
                   destruct (monitor.details c !! k); simpl
               end; intros [= <-]; eauto. }
  exists lines, key. split; [done|].
  clear Hkeys. revert lines log Hlines.
  induction reported as [|c0 cs IH]; intros lines log; simpl.
  - intros [= <-]. rewrite report_changes_cons, Hkey. by rewrite app_nil_r.
  - rewrite report_changes_cons.
    destruct (reporting.format_change c0) as [line|]; simpl; [|done].
    destruct (comprehension _ cs) as [more|]; simpl; [|done].
    intros [= <-]. rewrite (IH more) by done.
    by rewrite fmap_cons, <- app_assoc.
Qed.

(** ** Binary64 arithmetic *)

Section binary64.

Lemma float_sub_zero (x : float) : float_sub x (float_of_int 0) = x.
Proof. by destruct x as [[]|[]| |]. Qed.

Lemma float_of_int_1000 :
  float_of_int 1000 = S754_finite false 8796093022208000 (-43).
Proof. vm_compute. reflexivity. Qed.

Lemma not_negative_not_below (x : float) (n : Z) :
  not_negative x → (n ≤ 0)%Z → float_lt_int x n = false.
Proof.
  intros Hx Hn. destruct x as [s|s| |s m e]; simpl in *; subst; try done.
  - apply Z.ltb_ge. lia.
  - destruct (0 <=? e)%Z eqn:He; apply Z.ltb_ge; cbn [cond_Zopp].
    + apply Z.leb_le in He.
      assert (0 < 2 ^ e)%Z by (apply Z.pow_pos_nonneg; lia).
      assert (0 < Z.pos m * 2 ^ e)%Z by (apply Z.mul_pos_pos; lia). lia.
    + apply Z.leb_gt in He.
      assert (0 < 2 ^ (- e))%Z by (apply Z.pow_pos_nonneg; lia).
      assert (n * 2 ^ (- e) ≤ 0)%Z by (apply Z.mul_nonpos_nonneg; lia). lia.
Qed.

(** Rounding keeps the sign. *)
Lemma binary_round_aux_sign (s : bool) (m e : Z) (l : location) :
  match binary_round_aux prec emax s m e l with
  | S754_infinity s' | S754_finite s' _ _ => s' = s
  | _ => True
  end.
Proof.
  unfold binary_round_aux.
  destruct (shr_fexp prec emax m e l) as [mrs' e'].
  destruct (shr_fexp prec emax _ e' loc_Exact) as [mrs'' e''].
  destruct (shr_m mrs''); [done| |done].
  by destruct (e'' <=? emax - prec)%Z.
Qed.

Lemma binary_normalize_not_negative (m e : Z) :
  (0 ≤ m)%Z → not_negative (binary_normalize prec emax m e false).
Proof.
  intros Hm. destruct m as [|m|m]; [done| |lia]. simpl.
  unfold binary_round. destruct (shl_align _ _ _) as [mz ez].
  pose proof (binary_round_aux_sign false (Z.pos mz) ez loc_Exact) as Hsign.
  unfold not_negative. by destruct (binary_round_aux _ _ _ _ _ _).
Qed.

Lemma float_mul_not_negative (x : float) :
  not_negative x → not_negative (float_mul x (float_of_int 1000)).
Proof.
  rewrite float_of_int_1000. intros Hx.
  destruct x as [s|s| |s m e]; simpl in *; subst; try done.
  pose proof (binary_round_aux_sign false (Z.pos (m * 8796093022208000))
                (e + -43) loc_Exact) as Hsign.
  unfold not_negative. by destruct (binary_round_aux _ _ _ _ _ _).
Qed.

Lemma Qpower_2_pos (e : Z) : (0 < 2 ^ e)%Q.
Proof. by apply Qpower_0_lt. Qed.

(** The mantissa that [shl_align] gives stands for the same number. *)
Lemma shl_align_value (s : bool) (m : positive) (e ez : Z) :
  (ez ≤ e)%Z →
  (inject_Z (cond_Zopp s (Z.pos (shl_align m e ez).1)) * 2 ^ ez
   == inject_Z (cond_Zopp s (Z.pos m)) * 2 ^ e)%Q.
Proof.
  intros Hle. unfold shl_align.
  destruct (ez - e)%Z as [|d|d] eqn:Hd; [|lia|].
  - by replace ez with e by lia.
  - simpl fst.
    assert (Z.pos (Pos.iter xO m d) = 2 ^ Z.pos d * Z.pos m)%Z as Hshift.
    { rewrite <- Z.pow_pos_fold. apply (shift_pos_correct d m). }
    assert (cond_Zopp s (Z.pos (Pos.iter xO m d))
            = cond_Zopp s (Z.pos m) * 2 ^ Z.pos d)%Z as ->.
    { destruct s; simpl; rewrite Hshift; ring. }
    replace e with (Z.pos d + ez)%Z by lia.
    rewrite inject_Z_mult, Zpower_Qpower by lia.
    rewrite Qpower_plus by done. change (inject_Z 2) with 2%Q.
    by rewrite Qmult_assoc.
Qed.

(** Of two finite floats in order, the difference of the aligned
    mantissas is not negative. *)
Lemma aligned_difference_nonneg sx mx ex sy my ey a b :
  float_to_Q (S754_finite sy my ey) = Some a →
  float_to_Q (S754_finite sx mx ex) = Some b →
  (a <= b)%Q →
  (0 ≤ cond_Zopp sx (Z.pos (shl_align mx ex (Z.min ex ey)).1)
       - cond_Zopp sy (Z.pos (shl_align my ey (Z.min ex ey)).1))%Z.
Proof.
  intros [= <-] [= <-] Hle.
  rewrite <- (shl_align_value sx mx ex (Z.min ex ey)) in Hle by lia.
  rewrite <- (shl_align_value sy my ey (Z.min ex ey)) in Hle by lia.
  apply Qmult_le_r in Hle; [|apply Qpower_2_pos].
  rewrite <- Zle_Qle in Hle. lia.
Qed.

Lemma float_sub_not_negative (now last : float) :
  float_le last now → not_negative (float_sub now last).
Proof.
  intros (a & b & Ha & Hb & Hle).
  destruct now as [sx| | |sx mx ex], last as [sy| | |sy my ey]; try done.
  - by destruct sx, sy.
  - simpl in *. injection Ha as <-. injection Hb as <-.
    destruct sy; [done|]. exfalso. simpl in Hle.
    pose proof (Qpower_2_pos ey) as Hpos.
    assert (0 < inject_Z (Z.pos my) * 2 ^ ey)%Q; [|lra].
    apply Qmult_lt_0_compat; [|done]. by rewrite <- (Zlt_Qlt 0).
  - simpl in *. injection Ha as <-. injection Hb as <-.
    destruct sx; [|done]. exfalso. simpl in Hle.
    pose proof (Qpower_2_pos ex) as Hpos.
    assert (0 < inject_Z (Z.pos mx) * 2 ^ ex)%Q as Hm.
    { apply Qmult_lt_0_compat; [|done]. by rewrite <- (Zlt_Qlt 0). }
    change (Z.neg mx) with (- Z.pos mx)%Z in Hle.
    rewrite inject_Z_opp in Hle. lra.
  - apply binary_normalize_not_negative.
    by eapply aligned_difference_nonneg.
Qed.

(** On a clock that has not gone back, no event is within a window that
    is zero or negative. *)
Lemma within_empty_window (cfg : config.Config) (last now : float) :
  (config.event_debounce_ms cfg ≤ 0)%Z →
  float_le last now →
  within_window cfg last now = false.
Proof.
  intros Hd Hle. unfold within_window.
  apply not_negative_not_below; [|done].
  by apply float_mul_not_negative, float_sub_not_negative.
Qed.

End binary64.

(** ** The event handler, continued *)

Section handler_more.
Context `{!Platform}.
Implicit Types cfg : config.Config.
Implicit Types self : cli.Handler.
Implicit Types events : list (cli.FileSystemEvent * float).

Lemma classified_times_cons cfg self e t events p :
  classified_times cfg self ((e, t) :: events) p =
    (if decide ((cli.on_any_event_call cfg self e t).2 = Some p)
     then [t] else [])
    ++ classified_times cfg (cli.on_any_event_call cfg self e t).1 events p.
Proof.
  unfold classified_times. rewrite classifier_calls_cons. simpl.
  by destruct (decide _).
Qed.

(** An event that is not a file event for [p] makes no call for [p] and
    leaves the table entry of [p] as it is. *)
Lemma other_event_keeps_entry cfg self e t p :
  file_event_for p (e, t) = false →
  (cli.on_any_event_call cfg self e t).2 ≠ Some p
  ∧ cli._last_event (cli.on_any_event_call cfg self e t).1 !! p
    = cli._last_event self !! p.
Proof.
  intros Hother.
  assert ((cli.on_any_event_call cfg self e t).2 ≠ Some p) as Hcall.
  { revert Hother. unfold file_event_for. simpl.
    destruct (cli.is_directory e) eqn:Hdir; simpl.
    - intros _. unfold cli.on_any_event_call. by rewrite Hdir.
    - intros Hother%bool_decide_eq_false.
      rewrite on_any_event_call_file by done. simpl.
      destruct (within_window _ _ _); simpl; congruence. }
  split; [done|]. by apply other_call_keeps_entry.
Qed.

(** The call of a file event for [p] and the entry it leaves depend on
    the table through the entry of [p] only. *)
Lemma file_event_reads_entry cfg self1 self2 e t p :
  file_event_for p (e, t) = true →
  cli._last_event self1 !! p = cli._last_event self2 !! p →
  (cli.on_any_event_call cfg self1 e t).2
    = (cli.on_any_event_call cfg self2 e t).2
  ∧ cli._last_event (cli.on_any_event_call cfg self1 e t).1 !! p
    = cli._last_event (cli.on_any_event_call cfg self2 e t).1 !! p.
Proof.
  unfold file_event_for. simpl.
  intros [Hfile%negb_true_iff Hp%bool_decide_eq_true]%andb_true_iff Hentry.
  rewrite !on_any_event_call_file by done. simpl. rewrite Hp, Hentry.
  destruct (within_window _ _ _); simpl; [done|].
  by rewrite !lookup_insert_eq.
Qed.

Lemma classified_times_projection cfg events p : ∀ self1 self2,
  cli._last_event self1 !! p = cli._last_event self2 !! p →
  classified_times cfg self1 events p
    = classified_times cfg self2 (List.filter (file_event_for p) events) p.
Proof.
  induction events as [|[e t] events IH]; intros self1 self2 Hentry; [done|].
  rewrite classified_times_cons. simpl.
  destruct (file_event_for p (e, t)) eqn:Hfor.
  - rewrite classified_times_cons.
    destruct (file_event_reads_entry cfg self1 self2 e t p Hfor Hentry)
      as [-> Hentry'].
    f_equal. by apply IH.
  - destruct (other_event_keeps_entry cfg self1 e t p Hfor) as [Hcall Hkeep].
    rewrite decide_False by done. simpl. apply IH. by rewrite Hkeep.
Qed.

Lemma handler_after_dom cfg events : ∀ self,
  dom (cli._last_event (handler_after cfg self events))
    = dom (cli._last_event self)
      ∪ list_to_set (omap id (cli.classifier_calls cfg self events)).
Proof.
  induction events as [|[e t] events IH]; intros self.
  - simpl. set_solver.
  - rewrite classifier_calls_cons. simpl handler_after. rewrite IH.
    destruct (cli.on_any_event_call cfg self e t) as [self' [p|]] eqn:Hcall;
      simpl.
    + apply on_any_event_call_accepted in Hcall as (_ & _ & -> & _).
      rewrite dom_insert_L. set_solver.
    + apply on_any_event_call_rejected in Hcall as ->. set_solver.
Qed.

Lemma clock_monotone_cons e t events :
  clock_monotone ((e, t) :: events) →
  clock_monotone events ∧ Forall (λ et, float_le t et.2) events.
Proof.
  unfold clock_monotone. rewrite fmap_cons. intros Hs.
  apply StronglySorted_inv in Hs as [Hs Ht]. split; [done|].
  simpl in Ht. rewrite Forall_fmap in Ht. exact Ht.
Qed.

Lemma no_window_no_debounce cfg events : ∀ self,
  (config.event_debounce_ms cfg ≤ 0)%Z →
  clock_monotone events →
  Forall (λ et, float_le (float_of_int 0) et.2) events →
  (∀ p last, cli._last_event self !! p = Some last →
             Forall (λ et, float_le last et.2) events) →
  cli.classifier_calls cfg self events = undebounced_call <$> events.
Proof.
  induction events as [|[e t] events IH]; intros self Hd Hmono Hpos Hself;
    [done|].
  apply clock_monotone_cons in Hmono as [Hmono Ht].
  apply Forall_cons in Hpos as [Ht0 Hpos]. simpl in Ht0.
  rewrite classifier_calls_cons, fmap_cons. unfold undebounced_call at 1. simpl.
  destruct (cli.is_directory e) eqn:Hdir.
  - unfold cli.on_any_event_call. rewrite Hdir. simpl. f_equal.
    apply IH; try done. intros p last Hp.
    exact (proj2 (proj1 (Forall_cons _ _ _) (Hself p last Hp))).
  - rewrite on_any_event_call_file by done. simpl.
    set (p := Path_of_str (cli.src_path e)).
    assert (float_le (default (float_of_int 0) (cli._last_event self !! p)) t)
      as Hlast.
    { destruct (cli._last_event self !! p) as [last|] eqn:Hp; simpl; [|done].
      exact (proj1 (proj1 (Forall_cons _ _ _) (Hself p last Hp))). }
    rewrite within_empty_window by done.
    simpl. f_equal. apply IH; try done. simpl.
    intros q last. destruct (decide (p = q)) as [<-|Hne].
    + rewrite lookup_insert_eq. by intros [= <-].
    + rewrite lookup_insert_ne by done. intros Hq.
      exact (proj2 (proj1 (Forall_cons _ _ _) (Hself q last Hq))).
Qed.

End handler_more.

(** X20.  The debounce table never loses a path: after any sequence of
    events its keys are the keys it had and the paths of all events that
    reached the classifier. *)
Theorem debounce_table_keeps_every_path `{!Platform}
    (cfg : config.Config) (self : cli.Handler)
    (events : list (cli.FileSystemEvent * float)) :
  dom (cli._last_event (handler_after cfg self events))
    = dom (cli._last_event self)
      ∪ list_to_set (omap id (cli.classifier_calls cfg self events)).
Proof. apply handler_after_dom. Qed.

(** X21.  With [event_debounce_ms] zero or negative nothing is
    debounced: on a clock that starts at zero or later and never goes
    back, every file event reaches the classifier and every directory
    event is dropped. *)
Theorem debounce_without_window `{!Platform}
    (cfg : config.Config) (events : list (cli.FileSystemEvent * float)) :
  (config.event_debounce_ms cfg ≤ 0)%Z →
  clock_monotone events →
  Forall (λ et, float_le (float_of_int 0) et.2) events →
  cli.classifier_calls cfg cli.Handler_init events = undebounced_call <$> events.
Proof.
  intros Hd Hmono Hpos. by apply no_window_no_debounce.
Qed.

(** X22.  A file event whose path has had no classifier call yet, the
    first event of a path among them, is measured against clock reading
    zero: it is dropped exactly when the clock reading times 1000, the
    product rounded as a float, is below [event_debounce_ms]. *)
Theorem debounce_first_event `{!Platform}
    (cfg : config.Config) (events : list (cli.FileSystemEvent * float))
    (j : nat) (e : cli.FileSystemEvent) (now : float) :
  events !! j = Some (e, now) →
  cli.is_directory e = false →
  (∀ k, (k < j)%nat →
     cli.classifier_calls cfg cli.Handler_init events !! k
       ≠ Some (Some (Path_of_str (cli.src_path e)))) →
  cli.classifier_calls cfg cli.Handler_init events !! j
    = Some (if float_lt_int (float_mul now (float_of_int 1000))
                 (config.event_debounce_ms cfg)
            then None else Some (Path_of_str (cli.src_path e))).
Proof.
  intros Hj Hfile Hnone.
  rewrite (classifier_call_after_entry cfg events _ j e now Hj Hfile Hnone).
  simpl. rewrite lookup_empty. simpl. unfold within_window.
  by rewrite float_sub_zero.
Qed.

(** X23.  Debouncing is per path: the events that reach the classifier
    for a path are the same when all other events (events of other paths,
    directory events) are taken out of the sequence. *)
Theorem debounce_per_path `{!Platform}
    (cfg : config.Config) (self : cli.Handler)
    (events : list (cli.FileSystemEvent * float)) (p : Path) :
  classified_times cfg self events p
    = classified_times cfg self (List.filter (file_event_for p) events) p.
Proof. by apply classified_times_projection. Qed.

(** X24.  [on_moved] reports a file move with one info line that names
    source and destination and has an empty hash; it hashes nothing, is
    not debounced and does not raise.  A directory move is not
    reported. *)
Theorem on_moved_reports_one_line `{!Platform}
    (event : cli.FileSystemEvent) (log : Logger) :
  cli.on_moved event log =
    if cli.is_directory event then (Ok tt, log)
    else
      (Ok tt,
       log ++ [LogInfo ("MOVED " +:+ cli.src_path event +:+ " -> "
                          +:+ cli.dest_path event +:+ " hash=")]).
Proof.
  unfold cli.on_moved. destruct (cli.is_directory event); [done|].
  rewrite report_changes_cons.
  unfold reporting.format_change, getitem. simpl.
  rewrite lookup_insert_eq. simpl.
  rewrite !lookup_insert_ne by done.
  rewrite lookup_singleton_eq. rewrite lookup_singleton_ne by done.
  done.
Qed.

(** ** The polling loops *)

Section polling_loops.
Context `{!Platform}.

Lemma polling_cycles (body : filesystem → unit → Py unit) (fs : filesystem)
    (out : Logger) :
  (∀ fs', appends (body fs' tt)) →
  body fs tt [] = (Ok tt, out) →
  ∀ n log,
    for_each (replicate n fs) body tt log
      = (Ok tt, log ++ concat (replicate n out)).
Proof.
  intros Happ Hone. induction n as [|n IH]; intros log; simpl.
  - unfold py_ret. by rewrite app_nil_r.
  - unfold py_bind at 1. rewrite (Happ fs log), Hone. simpl.
    rewrite IH. by rewrite app_assoc.
Qed.

Lemma for_each_one {S A} (body : A → S → Py S) (x : A) (s : S) (log : Logger) :
  for_each [x] body s log = body x s log.
Proof.
  simpl. unfold py_bind, py_ret. by destruct (body x s log) as [[]].
Qed.

End polling_loops.

(** X25.  [polling_loop] never updates the baseline: on a disk that stays
    as it is, every iteration hands the reporter the same Changes, so
    with a reporter that only appends to the log the records of the first
    iteration are written again by each later one. *)
Theorem polling_loop_reports_again `{!Platform}
    (cfg : config.Config) (B : gmap string baseline.BaselineRecord)
    (reporter : list monitor.Change → Py unit) (fs : filesystem)
    (out : Logger) (n : nat) (log : Logger) :
  (∀ changes, appends (reporter changes)) →
  polling_loop cfg B reporter [fs] [] = (Ok tt, out) →
  polling_loop cfg B reporter (replicate n fs) log
    = (Ok tt, log ++ concat (replicate n out)).
Proof.
  intros Hreporter. unfold polling_loop. rewrite for_each_one.
  intros Hone. apply polling_cycles; [|done].
  intros fs'. apply appends_bind; [apply snapshot_appends|]. intros current.
  apply appends_bind; [apply appends_lift|]. intros changes.
  apply appends_bind; [apply Hreporter|]. intros _. apply appends_lift.
Qed.

(** X26.  The polling worker of [run_watch] reports a change that stays
    on disk in every cycle: the log records of one cycle on a disk are
    repeated by each further cycle on the same disk. *)
Theorem polling_worker_reports_again `{!Platform}
    (cfg : config.Config) (B : gmap string baseline.BaselineRecord)
    (fs : filesystem) (out : Logger) (n : nat) (log : Logger) :
  polling_worker cfg B [fs] [] = (Ok tt, out) →
  polling_worker cfg B (replicate n fs) log
    = (Ok tt, log ++ concat (replicate n out)).
Proof.
  unfold polling_worker. rewrite for_each_one.
  intros Hone. apply polling_cycles; [|done].
  intros fs'. apply appends_bind; [apply snapshot_appends|]. intros current.
  apply appends_bind; [apply appends_lift|]. intros changes.
  apply appends_bind; [apply report_changes_appends|]. intros _.
  apply appends_lift.
Qed.


(** X29.  A scan of the disk the baseline was built from detects
    nothing: whatever the logs were, the mapping [snapshot] returns on a
    file system is the mapping [build_baseline] returns on it, and
    comparing the two gives no Change. *)
Theorem scan_of_the_baseline_disk `{!Platform}
    (cfg : config.Config) (fs : filesystem) (log1 log1' log2 log2' : Logger)
    (built current : gmap string baseline.BaselineRecord) :
  baseline.build_baseline cfg fs log1 = (Ok built, log1') →
  monitor.snapshot cfg fs log2 = (Ok current, log2') →
  current = built ∧ monitor.compare_baseline built current = Ok [].
Proof.
  intros Hbuild Hsnap.
  change (monitor.snapshot cfg fs log1 = (Ok built, log1')) in Hbuild.
  rewrite (snapshot_appends cfg fs log1) in Hbuild.
  rewrite (snapshot_appends cfg fs log2) in Hsnap.
  assert (current = built) as -> by congruence.
  split; [done|]. apply compare_baseline_unchanged.
Qed.

(** * The further properties on the small platform *)

#[local] Existing Instance demo.platform.

Lemma demo_snapshot :
  monitor.snapshot demo.fim_config demo.disk []
    = (Ok demo_current, [demo_skip_locked]).
Proof. vm_compute. reflexivity. Defined.

Lemma demo_candidate_locked :
  candidate demo.fim_config demo.disk "/srv" "/srv/locked".
Proof.
  split_and!.
  - apply list_elem_of_here.
  - replace (utils.iter_files _ _ _)
      with ["/srv/a.txt"; "/srv/b.txt"; "/srv/locked"]
      by (vm_compute; reflexivity).
    do 2 apply list_elem_of_further. apply list_elem_of_here.
  - vm_compute. reflexivity.
Defined.

Lemma demo_update_concatenates : update_concatenates.
Proof.
  split; [done|]. intros h a b. symmetry. apply foldl_app.
Defined.

Lemma demo_keys_created : keys_present demo_created_b.
Proof.
  unfold keys_present. simpl. repeat constructor.
  eexists. vm_compute. reflexivity.
Defined.

Lemma demo_keys_missing : ¬ keys_present demo_keyless.
Proof.
  unfold keys_present. simpl. intros Hkeys.
  apply Forall_cons in Hkeys as [[x Hx] _]. vm_compute in Hx. discriminate Hx.
Defined.

(** X3 on the disk: the classifier and the diff engine on the changed
    file. *)
Lemma build_event_change_agrees_with_compare_witness :
  monitor.build_event_change demo.trusted "/srv/a.txt" demo.fim_config
    demo.disk []
  = (Ok (changes_for "/srv/a.txt" demo_changes), []).
Proof.
  apply (@build_event_change_agrees_with_compare demo.platform
           demo.trusted demo_current).
  - vm_compute. reflexivity.
  - right. split; [reflexivity|].
    exists (baseline.mkBaselineRecord "/srv/a.txt" "c3" 2 demo.a_time).
    split; vm_compute; reflexivity.
Defined.

(** X4 on the disk: the excluded file is classified all the same. *)
Lemma build_event_change_reads_algorithm_only_witness :
  monitor.build_event_change ∅ "/srv/b.txt" demo_excluding_config demo.disk []
    = monitor.build_event_change ∅ "/srv/b.txt" demo.fim_config demo.disk [].
Proof.
  apply (@build_event_change_reads_algorithm_only demo.platform).
  reflexivity.
Defined.

(** X5 on the disk. *)
Lemma build_baseline_records_witness :
  baseline.path (baseline.mkBaselineRecord "/srv/a.txt" "c3" 2 demo.a_time)
    = "/srv/a.txt"
  ∧ utils.compute_file_hash demo.disk "/srv/a.txt" "sum8" = Ok "c3"
  ∧ Path_stat demo.disk "/srv/a.txt" = Ok (mkStat 2 demo.a_time).
Proof.
  apply (@build_baseline_records demo.platform demo.fim_config demo.disk []
           [demo_skip_locked] demo_current demo_snapshot "/srv/a.txt").
  vm_compute. reflexivity.
Defined.

(** X6 on the disk. *)
Lemma snapshot_keys_are_candidates_witness :
  ∃ root, candidate demo.fim_config demo.disk root "/srv/b.txt".
Proof.
  apply (@snapshot_keys_are_candidates demo.platform demo.fim_config demo.disk
           [] [demo_skip_locked] demo_current demo_snapshot).
  apply elem_of_dom.
  exists (baseline.mkBaselineRecord "/srv/b.txt" "62" 1 demo.b_time).
  vm_compute. reflexivity.
Defined.

(** X7 on the disk: the file that cannot be read is warned about. *)
Lemma snapshot_accounts_for_candidates_witness :
  "/srv/locked" ∈ dom demo_current
  ∨ ∃ msg,
      LogWarning ("Skipping " +:+ "/srv/locked" +:+ ": " +:+ msg)
        ∈ [demo_skip_locked]
      ∧ (utils.compute_file_hash demo.disk "/srv/locked"
           (config.hash_algorithm demo.fim_config) = Raise (OSError msg)
         ∨ Path_stat demo.disk "/srv/locked" = Raise (OSError msg)).
Proof.
  exact (@snapshot_accounts_for_candidates demo.platform demo.fim_config
           demo.disk [] [demo_skip_locked] demo_current demo_snapshot
           "/srv" "/srv/locked" demo_candidate_locked).
Defined.

(** X8 on the disk. *)
Lemma snapshot_logs_only_skip_warnings_witness :
  ∃ warnings,
    [demo_skip_locked] = [] ++ warnings ∧ Forall skip_warning warnings.
Proof.
  exact (@snapshot_logs_only_skip_warnings demo.platform demo.fim_config
           demo.disk [] [demo_skip_locked] (Ok demo_current) demo_snapshot).
Defined.

(** X9 on the disk: a file root and a directory root. *)
Lemma iter_files_symlink_policy_witness :
  utils.iter_files demo.disk "/srv/a.txt" false = ["/srv/a.txt"]
  ∧ ∀ follow p, p ∈ utils.iter_files demo.disk "/srv" follow →
      p ∈ Path_rglob demo.disk "/srv" "*" ∧ Path_is_file demo.disk p = true.
Proof.
  split.
  - apply (proj1 (@iter_files_symlink_policy demo.platform demo.disk
                    "/srv/a.txt")).
    vm_compute. reflexivity.
  - apply (proj2 (@iter_files_symlink_policy demo.platform demo.disk "/srv")).
    vm_compute. reflexivity.
Defined.

(** X10 on an excluded file. *)
Lemma should_exclude_some_pattern_witness :
  ∃ relative,
    Path_relative_to "/srv/b.txt" "/srv" = Ok relative
    ∧ (true = true
       ↔ ∃ pattern, pattern ∈ [JStr "/srv/b.txt"]
           ∧ (Path_match "/srv/b.txt" pattern = Ok true
              ∨ Path_match relative pattern = Ok true)).
Proof.
  apply (@should_exclude_some_pattern demo.platform "/srv/b.txt" "/srv"
           [JStr "/srv/b.txt"] true).
  vm_compute. reflexivity.
Defined.

(** X11 on the disk: [sum8] concatenates. *)
Lemma compute_file_hash_of_bytes_witness :
  ∃ h chunks,
    hashlib_new "sum8" = Ok h
    ∧ Path_open_rb_chunks demo.disk "/srv/a.txt" (1024 * 1024) = Ok chunks
    ∧ "c3" = hasher_hexdigest (hasher_update h (concat chunks)).
Proof.
  apply (@compute_file_hash_of_bytes demo.platform demo.disk "/srv/a.txt"
           "sum8" "c3" demo_update_concatenates).
  vm_compute. reflexivity.
Defined.

(** X12 on the document with an empty list of paths. *)
Lemma load_config_needs_a_path_witness :
  config.load_config demo_office_disk "/etc/no-paths.json"
    = Raise (ValueError "Config must include at least one path.").
Proof.
  apply (@load_config_needs_a_path demo.platform demo_office_disk
           "/etc/no-paths.json" demo_no_paths_json {[ "paths" := JList [] ]}).
  - vm_compute. reflexivity.
  - reflexivity.
  - right. apply lookup_singleton_eq.
Defined.

(** X13 on the configuration of the disk. *)
Lemma load_config_paths_nonempty_witness :
  config.paths demo.fim_config ≠ [].
Proof.
  apply (@load_config_paths_nonempty demo.platform demo.disk "/etc/fim.json").
  vm_compute. reflexivity.
Defined.

(** X14 on the document that only lists [/srv]. *)
Lemma load_config_defaults_witness :
  config.load_config demo_office_disk "/etc/paths-only.json" =
    Ok (config.mkConfig ["/srv"] [] false "sha256" "./baseline.json"
          "./logs/fim.log" 60 250).
Proof.
  apply (@load_config_defaults demo.platform demo_office_disk
           "/etc/paths-only.json" demo_paths_only_json ["/srv"]).
  - vm_compute. reflexivity.
  - reflexivity.
  - discriminate.
  - reflexivity.
  - reflexivity.
  - reflexivity.
Defined.

(** X15 on the baseline file whose record is filed under another key
    than its path and has a field more. *)
Lemma load_baseline_keys_and_fields_witness :
  baseline.load_baseline "/var/renamed.json" demo_office_disk
    = Ok demo_renamed.
Proof.
  apply (@load_baseline_keys_and_fields demo.platform "/var/renamed.json"
           demo_office_disk demo_renamed_baseline_json
           {[ "/srv/old.txt" := JDict demo_renamed_fields ]} demo_renamed).
  - vm_compute. reflexivity.
  - reflexivity.
  - unfold demo_renamed. by rewrite !dom_singleton_L.
  - intros p r Hr. unfold demo_renamed in Hr.
    apply lookup_singleton_Some in Hr as [<- <-].
    exists demo_renamed_fields. rewrite lookup_singleton_eq.
    split_and!; vm_compute; reflexivity.
Defined.

(** X16 on the baseline file whose record has no hash. *)
Lemma load_baseline_missing_field_witness :
  ∃ e, baseline.load_baseline "/var/broken.json" demo_office_disk = Raise e.
Proof.
  apply (@load_baseline_missing_field demo.platform "/var/broken.json"
           demo_office_disk demo_broken_baseline_json
           {[ "/srv/a.txt" :=
                JDict {[ "path" := JStr "/srv/a.txt";
                         "size" := JInt 2;
                         "mtime" := JFloat demo.a_time ]} ]}
           {[ "path" := JStr "/srv/a.txt";
              "size" := JInt 2;
              "mtime" := JFloat demo.a_time ]}
           "/srv/a.txt" "hash").
  - vm_compute. reflexivity.
  - reflexivity.
  - apply lookup_singleton_eq.
  - unfold required_fields. apply list_elem_of_further, list_elem_of_here.
  - vm_compute. reflexivity.
Defined.

(** X18 on one Change. *)
Lemma report_changes_one_line_each_witness :
  ∃ lines,
    comprehension reporting.format_change [demo_created_b] = Ok lines
    ∧ length lines = length [demo_created_b]
    ∧ reporting.report_changes [demo_created_b] []
      = (Ok tt, [] ++ (LogInfo <$> lines)).
Proof.
  apply (@report_changes_one_line_each demo.platform [demo_created_b] []).
  constructor; [apply demo_keys_created|constructor].
Defined.

(** X19 on a Change without keys between two Changes with theirs. *)
Lemma report_changes_stops_at_missing_key_witness :
  ∃ lines key,
    comprehension reporting.format_change [demo_created_b] = Ok lines
    ∧ reporting.report_changes
        ([demo_created_b] ++ demo_keyless :: [demo_created_b]) []
      = (Raise (KeyError key), [] ++ (LogInfo <$> lines)).
Proof.
  apply (@report_changes_stops_at_missing_key demo.platform [demo_created_b]
           demo_keyless [demo_created_b] []).
  - constructor; [apply demo_keys_created|constructor].
  - apply demo_keys_missing.
Defined.

(** X21 on the burst, without a window. *)
Lemma debounce_without_window_witness :
  cli.classifier_calls demo_no_window_config cli.Handler_init demo.burst
    = undebounced_call <$> demo.burst.
Proof.
  apply (@debounce_without_window demo.platform demo_no_window_config
           demo.burst).
  - simpl. lia.
  - apply demo_burst_monotone.
  - repeat (constructor;
            [eexists _, _; split_and!; [reflexivity|reflexivity|by vm_compute]|]).
    constructor.
Defined.

(** X22 on an event at the binary64 value of 0.3 s with a window of
    300 ms: the reading is measured against zero, and its product with
    1000 rounds to 300, which is not below the window. *)
Lemma debounce_first_event_witness :
  cli.classifier_calls demo.fim_300_config cli.Handler_init
    [(demo.file_event "/srv/a.txt", dyadic 5404319552844595 (-54))] !! 0%nat
  = Some (Some "/srv/a.txt").
Proof.
  refine (eq_trans
            (@debounce_first_event demo.platform demo.fim_300_config
               [(demo.file_event "/srv/a.txt", dyadic 5404319552844595 (-54))]
               0 (demo.file_event "/srv/a.txt")
               (dyadic 5404319552844595 (-54)) eq_refl eq_refl _) _).
  - intros k Hk. lia.
  - vm_compute. reflexivity.
Defined.

(** X25 and X26 on the disk, two cycles. *)
Lemma polling_loop_reports_again_witness :
  polling_loop demo.fim_config demo.trusted reporting.report_changes
    (replicate 2 demo.disk) []
  = (Ok tt, [] ++ concat (replicate 2 demo_cycle_log)).
Proof.
  apply (@polling_loop_reports_again demo.platform).
  - intros changes. apply report_changes_appends.
  - vm_compute. reflexivity.
Defined.

Lemma polling_worker_reports_again_witness :
  polling_worker demo.fim_config demo.trusted (replicate 2 demo.disk) []
  = (Ok tt, [] ++ concat (replicate 2 demo_cycle_log)).
Proof.
  apply (@polling_worker_reports_again demo.platform).
  vm_compute. reflexivity.
Defined.


(** X29 on the disk. *)
Lemma scan_of_the_baseline_disk_witness :
  demo_current = demo_current
  ∧ monitor.compare_baseline demo_current demo_current = Ok [].
Proof.
  exact (@scan_of_the_baseline_disk demo.platform demo.fim_config demo.disk
           [] [demo_skip_locked] [] [demo_skip_locked] demo_current
           demo_current demo_snapshot demo_snapshot).
Defined.


(** Two files in turn: the events of [/srv/a.txt] that reach the
    classifier, with and without the events of [/srv/b.txt] and of the
    directory. *)
Example interleaved_events_of_a :
  classified_times demo.fim_config cli.Handler_init demo_interleaved "/srv/a.txt"
    = [dyadic 1000 0; dyadic 16005 (-4)]
  ∧ List.filter (file_event_for "/srv/a.txt") demo_interleaved = demo.burst.
Proof. split; vm_compute; reflexivity. Qed.
